(** * MQTT Dialer Bot: the message-handling pipeline

    A shallow embedding of the component [MqttDialerBot]: the phone-number
    extractor ([extractPhoneNumber]), the call trigger ([makePhoneCall]),
    the bounded message log kept by the ['message'] handler and the
    connection session ([connectToMqtt], its transport handlers and
    [disconnect]).

    JavaScript strings are sequences of UTF-16 code units; the two regular
    expressions of the source are run by a small backtracking matcher that
    follows the greedy semantics of ECMAScript on the constructs the source
    uses (character sets, [?], [{lo,hi}], concatenation, a capturing
    group), and by models of [String.prototype.match] and
    [String.prototype.replace] for a global pattern. *)

From Stdlib Require Import List Bool Arith Lia NArith ZArith.
From Stdlib Require Import Ascii String.
Import ListNotations.

Set Implicit Arguments.

(** ** JavaScript strings *)

Module JsString.

(** A UTF-16 code unit. *)
Definition char16 : Type := N.

Definition jsstring : Type := list char16.

(** A string literal of the source (ASCII only there). *)
Definition js (s : string) : jsstring :=
  List.map N_of_ascii (list_ascii_of_string s).

(** [a === b] on strings. *)
Fixpoint str_eqb (a b : jsstring) : bool :=
  match a, b with
  | [], [] => true
  | x :: a', y :: b' => N.eqb x y && str_eqb a' b'
  | _, _ => false
  end.

Fixpoint starts_with (sub s : jsstring) : bool :=
  match sub, s with
  | [], _ => true
  | x :: sub', y :: s' => N.eqb x y && starts_with sub' s'
  | _ :: _, [] => false
  end.

(** [s.includes(sub)]. *)
Fixpoint includes (s sub : jsstring) : bool :=
  starts_with sub s ||
  match s with
  | [] => false
  | _ :: s' => includes s' sub
  end.

(** [s.slice(0, n)] on an array, for [0 <= n]. *)
Definition slice0 {A : Type} (n : nat) (l : list A) : list A := firstn n l.

End JsString.
Import JsString.

(** ** Regular expressions *)

Module RegExp.

(** The pattern constructs that occur in the source. *)
Inductive regex : Type :=
| CharSet (p : char16 -> bool)
| Cat (r1 r2 : regex)
| Rep (r : regex) (lo hi : nat)
| Group (r : regex).

(** [r?] is [r{0,1}]. *)
Definition Opt (r : regex) : regex := Rep r 0 1.

(** A continuation receives the input left and returns the input left
    once the whole pattern has matched, or fails. *)
Definition Cont : Type := jsstring -> option jsstring.
Definition Matcher : Type := jsstring -> Cont -> option jsstring.

(** Greedy [{lo,hi}]: one more iteration first, then fewer iterations.
    An iteration that matched the empty string once the minimum is
    reached is rejected, as RepeatMatcher does. *)
Fixpoint repeat_matcher (mr : Matcher) (lo hi : nat) (s : jsstring)
         (k : Cont) : option jsstring :=
  match hi with
  | 0 => if lo =? 0 then k s else None
  | S hi' =>
      match mr s (fun s' =>
                    if (lo =? 0) && (List.length s' =? List.length s)
                    then None
                    else repeat_matcher mr (pred lo) hi' s' k) with
      | Some rest => Some rest
      | None => if lo =? 0 then k s else None
      end
  end.

Fixpoint matcher (r : regex) : Matcher :=
  match r with
  | CharSet p =>
      fun s k =>
        match s with
        | c :: s' => if p c then k s' else None
        | [] => None
        end
  | Cat r1 r2 => fun s k => matcher r1 s (fun s1 => matcher r2 s1 k)
  | Rep r0 lo hi => repeat_matcher (matcher r0) lo hi
  | Group r0 => matcher r0
  end.

(** The text matched when the pattern is tried at the start of [s]. *)
Definition match_at (r : regex) (s : jsstring) : option jsstring :=
  match matcher r s (fun rest => Some rest) with
  | Some rest => Some (firstn (List.length s - List.length rest) s)
  | None => None
  end.

(** All the matches of a global pattern, left to right.  [skip] counts
    the code units still covered by the previous match: after a match of
    [n > 0] units the search resumes [n] units further, after an empty
    match one unit further. *)
Fixpoint match_all_from (r : regex) (skip : nat) (s : jsstring)
  : list jsstring :=
  match skip with
  | S k =>
      match s with
      | [] => []
      | _ :: s' => match_all_from r k s'
      end
  | 0 =>
      match match_at r s with
      | Some mt =>
          mt :: match s with
                | [] => []
                | _ :: s' => match_all_from r (pred (List.length mt)) s'
                end
      | None =>
          match s with
          | [] => []
          | _ :: s' => match_all_from r 0 s'
          end
      end
  end.

(** [s.match(r)] for a pattern with the [g] flag: the array of the
    matched texts, or [null] when there is none. *)
Definition String_match (s : jsstring) (r : regex)
  : option (list jsstring) :=
  match match_all_from r 0 s with
  | [] => None
  | ms => Some ms
  end.

(** [s.replace(r, repl)] for a pattern with the [g] flag and a
    replacement text without [$]. *)
Fixpoint replace_from (r : regex) (repl : jsstring) (skip : nat)
         (s : jsstring) : jsstring :=
  match skip with
  | S k =>
      match s with
      | [] => []
      | _ :: s' => replace_from r repl k s'
      end
  | 0 =>
      match match_at r s with
      | Some mt =>
          repl ++
          match s with
          | [] => []
          | c :: s' =>
              (if List.length mt =? 0 then [c] else []) ++
              replace_from r repl (pred (List.length mt)) s'
          end
      | None =>
          match s with
          | [] => []
          | c :: s' => c :: replace_from r repl 0 s'
          end
      end
  end.

Definition String_replace (s : jsstring) (r : regex) (repl : jsstring)
  : jsstring :=
  replace_from r repl 0 s.

(** *** Character classes *)

Definition code (a : ascii) : char16 := N_of_ascii a.

Definition is_char (a : ascii) (c : char16) : bool := N.eqb c (code a).

Definition in_range (lo hi c : char16) : bool :=
  N.leb lo c && N.leb c hi.

(** [\d]: the ASCII digits. *)
Definition is_digit (c : char16) : bool := in_range 48%N 57%N c.

(** [\s]: WhiteSpace and LineTerminator of ECMAScript. *)
Definition is_space (c : char16) : bool :=
  in_range 9%N 13%N c            (* TAB, LF, VT, FF, CR *)
  || N.eqb c 32%N              (* SPACE *)
  || N.eqb c 160%N             (* U+00A0 *)
  || N.eqb c 5760%N            (* U+1680 *)
  || in_range 8192%N 8202%N c    (* U+2000 .. U+200A *)
  || N.eqb c 8232%N            (* U+2028 *)
  || N.eqb c 8233%N            (* U+2029 *)
  || N.eqb c 8239%N            (* U+202F *)
  || N.eqb c 8287%N            (* U+205F *)
  || N.eqb c 12288%N           (* U+3000 *)
  || N.eqb c 65279%N.          (* U+FEFF *)

Definition is_plus : char16 -> bool := is_char "+"%char.
Definition is_hyphen : char16 -> bool := is_char "-"%char.
Definition is_lparen : char16 -> bool := is_char "("%char.
Definition is_rparen : char16 -> bool := is_char ")"%char.

End RegExp.
Import RegExp.

(** ** The phone-number extractor *)

(** [[\s\-\(\)]] *)
Definition separator_class (c : char16) : bool :=
  is_space c || is_hyphen c || is_lparen c || is_rparen c.

(** [[\d\s\-\(\)]] *)
Definition phone_class (c : char16) : bool :=
  is_digit c || is_space c || is_hyphen c || is_lparen c || is_rparen c.

(** [/(\+?[\d\s\-\(\)]{7,15})/g] *)
Definition phoneRegex : regex :=
  Group (Cat (Opt (CharSet is_plus)) (Rep (CharSet phone_class) 7 15)).

(** [/[\s\-\(\)]/g] *)
Definition cleanRegex : regex := CharSet separator_class.

Definition extractPhoneNumber (message : jsstring) : option jsstring :=
  match String_match message phoneRegex with
  | Some (m0 :: _) => Some (String_replace m0 cleanRegex [])
  | _ => None
  end.

(** ** The component's data *)

(** [Date]: milliseconds since the epoch. *)
Definition Date : Type := Z.

(** The [message] of a thrown or reported [Error]. *)
Definition JsError : Type := jsstring.

Record MqttMessage : Type := mkMqttMessage {
  topic : jsstring;
  message : jsstring;
  timestamp : Date;
  phoneNumber : option jsstring   (* [phoneNumber?: string] *)
}.

Record MqttConfig : Type := mkMqttConfig {
  broker : jsstring;
  port : Z;
  cfg_topic : jsstring;           (* [topic] *)
  username : option jsstring;
  password : option jsstring
}.

(** [mqtt.IClientOptions], the fields the source sets. *)
Record IClientOptions : Type := mkOptions {
  keepalive : Z;
  clientId : jsstring;
  protocolId : jsstring;
  protocolVersion : Z;
  clean : bool;
  reconnectPeriod : Z;
  connectTimeout : Z;
  opt_username : option jsstring;
  opt_password : option jsstring
}.

(** The target [`${protocol}://${config.broker}:${config.port}/mqtt`],
    kept as its three interpolated parts. *)
Record Url : Type := mkUrl {
  protocol : jsstring;
  url_host : jsstring;
  url_port : Z
}.

(** The client returned by [mqtt.connect]; its handlers are closures over
    the [config] of the render that called [connectToMqtt]. *)
Record MqttClient : Type := mkClient {
  client_url : Url;
  client_options : IClientOptions;
  closure_config : MqttConfig
}.

(** The hooks of the component: four [useState] cells and [clientRef]. *)
Record State : Type := mkState {
  isConnected : bool;
  messages : list MqttMessage;
  config : MqttConfig;
  showSettings : bool;
  clientRef : option MqttClient
}.

Definition initial_config : MqttConfig :=
  {| broker := js "broker.hivemq.com";
     port := 8000;
     cfg_topic := js "dialer/phone";
     username := Some [];
     password := Some [] |}.

Definition initial_state : State :=
  {| isConnected := false;
     messages := [];
     config := initial_config;
     showSettings := true;
     clientRef := None |}.

(** ** Effects *)

Record Toast : Type := mkToast {
  title : jsstring;
  description : jsstring;
  destructive : bool;             (* [variant: "destructive"] *)
  duration : option Z
}.

(** What the component does to the outside, in order. *)
Inductive Effect : Type :=
| EToast (t : Toast)
| EConsoleLog (line : jsstring)
| EWindowOpen (url target : jsstring)
| EMqttConnect (url : Url) (options : IClientOptions)
| ESubscribe (topic : jsstring)
| EClientEnd.

Inductive Completion (A : Type) : Type :=
| Normal (a : A)
| Throw (e : JsError).
Arguments Normal {A} a.
Arguments Throw {A} e.

(** The state of the promise an [async] function returns. *)
Inductive Promise (A : Type) : Type :=
| Fulfilled (a : A)
| Rejected (e : JsError).
Arguments Fulfilled {A} a.
Arguments Rejected {A} e.

Record Outcome (A : Type) : Type := mkOutcome {
  effects : list Effect;
  final : State;
  completion : Completion A
}.

(** A piece of component code: it reads and updates the hooks, acts on
    the outside and completes normally or throws. *)
Definition Act (A : Type) : Type := State -> Outcome A.

Definition ret {A : Type} (a : A) : Act A :=
  fun st => mkOutcome [] st (Normal a).

Definition bind {A B : Type} (m : Act A) (f : A -> Act B) : Act B :=
  fun st =>
    let o := m st in
    match completion o with
    | Normal a =>
        let o' := f a (final o) in
        mkOutcome (effects o ++ effects o') (final o') (completion o')
    | Throw e => mkOutcome (effects o) (final o) (Throw e)
    end.

Notation "x <- m ;; k" := (bind m (fun x => k))
  (at level 61, m at next level, right associativity).
Notation "m ;; k" := (bind m (fun _ => k))
  (at level 61, right associativity).

(** [try { m } catch (error) { h error }] *)
Definition try_catch {A : Type} (m : Act A) (h : JsError -> Act A) : Act A :=
  fun st =>
    let o := m st in
    match completion o with
    | Normal _ => o
    | Throw e =>
        let o' := h e (final o) in
        mkOutcome (effects o ++ effects o') (final o') (completion o')
    end.

(** A call of an [async] function without [await] in its body: the body
    runs at once and what it throws rejects the returned promise. *)
Definition async {A : Type} (body : Act A) : Act (Promise A) :=
  fun st =>
    let o := body st in
    mkOutcome (effects o) (final o)
      (Normal match completion o with
              | Normal a => Fulfilled a
              | Throw e => Rejected e
              end).

Definition emit (e : Effect) : Act unit :=
  fun st => mkOutcome [e] st (Normal tt).

Definition get : Act State :=
  fun st => mkOutcome [] st (Normal st).

Definition modify (f : State -> State) : Act unit :=
  fun st => mkOutcome [] (f st) (Normal tt).

(** The notification, the console and the hook setters complete
    normally; [window.open] and [mqtt.connect], which leave the page, may
    throw (see [window_open] and [mqtt_connect] below). *)
Definition toast (t : Toast) : Act unit := emit (EToast t).
Definition console_log (line : jsstring) : Act unit := emit (EConsoleLog line).

Definition setIsConnected (b : bool) : Act unit :=
  modify (fun st => mkState b (messages st) (config st) (showSettings st)
                            (clientRef st)).

Definition setShowSettings (b : bool) : Act unit :=
  modify (fun st => mkState (isConnected st) (messages st) (config st) b
                            (clientRef st)).

(** [setMessages(prev => f prev)] *)
Definition setMessages (f : list MqttMessage -> list MqttMessage)
  : Act unit :=
  modify (fun st => mkState (isConnected st) (f (messages st)) (config st)
                            (showSettings st) (clientRef st)).

(** [clientRef.current = v] *)
Definition set_clientRef (v : option MqttClient) : Act unit :=
  modify (fun st => mkState (isConnected st) (messages st) (config st)
                            (showSettings st) v).

(** Truthiness of a [string | null]: [null] and the empty string are
    falsy. *)
Definition if_truthy {A : Type} (v : option jsstring)
           (th : jsstring -> A) (el : A) : A :=
  match v with
  | Some (c :: n) => th (c :: n)
  | _ => el
  end.

(** [v || undefined] *)
Definition or_undefined (v : option jsstring) : option jsstring :=
  if_truthy v (fun n => Some n) None.

(** ** The call trigger and the connection session *)

Section Component.

(** The platform the component runs on. *)

(** [window.location.hostname] *)
Variable hostname : jsstring.

(** How [window.open(url, target)] completes: normally, or by throwing
    (the mechanism is missing or refuses). *)
Variable window_open_completion : jsstring -> jsstring -> Completion unit.

(** How [mqtt.connect(url, options)] completes. *)
Variable mqtt_connect_completion : Url -> IClientOptions -> Completion unit.

(** The payload type of the transport and its [toString()]. *)
Variable Buffer : Type.
Variable Buffer_toString : Buffer -> jsstring.

Definition window_open (url target : jsstring) : Act unit :=
  fun st =>
    mkOutcome [EWindowOpen url target] st
              (window_open_completion url target).

Definition mqtt_connect (url : Url) (options : IClientOptions)
  : Act unit :=
  fun st =>
    mkOutcome [EMqttConnect url options] st
              (mqtt_connect_completion url options).

(** [hostname === 'localhost' || hostname.includes('lovableproject.com')] *)
Definition is_dev_host : bool :=
  str_eqb hostname (js "localhost")
  || includes hostname (js "lovableproject.com").

Definition makePhoneCall (phoneNumber : jsstring) : Act (Promise unit) :=
  async
    (try_catch
       (if is_dev_host then
          toast {| title := js "Phone Call Triggered";
                   description := js "Would call: " ++ phoneNumber;
                   destructive := false;
                   duration := Some 5000%Z |} ;;
          console_log (js "Would make call to: " ++ phoneNumber)
        else
          window_open (js "tel:" ++ phoneNumber) (js "_system"))
       (fun error =>
          toast {| title := js "Call Failed";
                   description :=
                     js "Could not initiate call to " ++ phoneNumber;
                   destructive := true;
                   duration := None |})).

(** [client.on('connect', ...)] *)
Definition on_connect (client : MqttClient) : Act unit :=
  setIsConnected true ;;
  setShowSettings false ;;
  emit (ESubscribe (cfg_topic (closure_config client))).

(** The callback given to [client.subscribe]. *)
Definition on_subscribed (client : MqttClient) (err : option JsError)
  : Act unit :=
  match err with
  | Some _ =>
      toast {| title := js "Subscription Failed";
               description :=
                 js "Could not subscribe to topic: "
                 ++ cfg_topic (closure_config client);
               destructive := true;
               duration := None |}
  | None =>
      toast {| title := js "Connected & Subscribed";
               description :=
                 js "Listening to " ++ cfg_topic (closure_config client);
               destructive := false;
               duration := None |}
  end.

(** The record the ['message'] handler builds. *)
Definition build_message (topic : jsstring) (message : Buffer)
           (now : Date) : MqttMessage :=
  let messageStr := Buffer_toString message in
  let phoneNumber := extractPhoneNumber messageStr in
  {| topic := topic;
     message := messageStr;
     timestamp := now;
     phoneNumber := or_undefined phoneNumber |}.

(** [prev => [mqttMessage, ...prev.slice(0, 49)]] *)
Definition push_message (mqttMessage : MqttMessage)
           (prev : list MqttMessage) : list MqttMessage :=
  mqttMessage :: slice0 49 prev.

(** [client.on('message', ...)]; [now] is the value of [new Date()]. *)
Definition on_message (topic : jsstring) (message : Buffer) (now : Date)
  : Act unit :=
  let messageStr := Buffer_toString message in
  let phoneNumber := extractPhoneNumber messageStr in
  let mqttMessage := build_message topic message now in
  setMessages (push_message mqttMessage) ;;
  if_truthy phoneNumber
    (fun phoneNumber =>
       toast {| title := js "Phone Number Detected";
                description := js "Calling " ++ phoneNumber ++ js "...";
                destructive := false;
                duration := None |} ;;
       makePhoneCall phoneNumber ;;
       ret tt)
    (ret tt).

(** [client.on('error', ...)] *)
Definition on_error (err : JsError) : Act unit :=
  toast {| title := js "Connection Error";
           description := err;
           destructive := true;
           duration := None |}.

(** [client.on('close', ...)] *)
Definition on_close : Act unit := setIsConnected false.

(** [connectToMqtt]; [random_hex] is [Math.random().toString(16)]. *)
Definition connectToMqtt (random_hex : jsstring) : Act unit :=
  try_catch
    (st <- get ;;
     let config := config st in
     let protocol := if (port config =? 8884)%Z then js "wss" else js "ws" in
     let url := mkUrl protocol (broker config) (port config) in
     let options :=
       {| keepalive := 60;
          clientId := js "mqtt_dialer_" ++ skipn 3 random_hex;
          protocolId := js "MQTT";
          protocolVersion := 4;
          clean := true;
          reconnectPeriod := 1000;
          connectTimeout := 30 * 1000;
          opt_username := None;
          opt_password := None |} in
     let options :=
       if_truthy (username config)
         (fun u =>
            mkOptions (keepalive options) (clientId options)
                      (protocolId options) (protocolVersion options)
                      (clean options) (reconnectPeriod options)
                      (connectTimeout options)
                      (Some u) (password config))
         options in
     mqtt_connect url options ;;
     set_clientRef (Some (mkClient url options config)))
    (fun error =>
       toast {| title := js "Connection Failed";
                description := js "Could not connect to MQTT broker";
                destructive := true;
                duration := None |}).

Definition disconnect : Act unit :=
  st <- get ;;
  match clientRef st with
  | Some _ =>
      emit EClientEnd ;;
      set_clientRef None ;;
      setIsConnected false ;;
      toast {| title := js "Disconnected";
               description := js "MQTT connection closed";
               destructive := false;
               duration := None |}
  | None => ret tt
  end.

(** The cleanup of [useEffect], run when the component unmounts. *)
Definition unmount : Act unit :=
  st <- get ;;
  match clientRef st with
  | Some _ => emit EClientEnd
  | None => ret tt
  end.

(** *** Transport events *)

Inductive TransportEvent : Type :=
| EvConnect
| EvSubscribed (err : option JsError)
| EvMessage (topic : jsstring) (message : Buffer) (now : Date)
| EvError (err : JsError)
| EvClose.

Definition is_message_event (ev : TransportEvent) : bool :=
  match ev with
  | EvMessage _ _ _ => true
  | _ => false
  end.

(** The handler the client runs for an event. *)
Definition handle (client : MqttClient) (ev : TransportEvent) : Act unit :=
  match ev with
  | EvConnect => on_connect client
  | EvSubscribed err => on_subscribed client err
  | EvMessage topic message now => on_message topic message now
  | EvError err => on_error err
  | EvClose => on_close
  end.

(** The handlers of a sequence of events, each started on the state the
    previous one left. *)
Fixpoint run_events (client : MqttClient) (evs : list TransportEvent)
         (st : State) : list Effect * State :=
  match evs with
  | [] => ([], st)
  | ev :: evs' =>
      let o := handle client ev st in
      let (effs, st') := run_events client evs' (final o) in
      (effects o ++ effs, st')
  end.

End Component.

(** * Vocabulary of the properties *)

(** ** Matches of the phone pattern *)

(** Length of the longest prefix of [s] in the class [p], at most [n]. *)
Fixpoint run (p : char16 -> bool) (n : nat) (s : jsstring) : nat :=
  match n, s with
  | S n', c :: s' => if p c then S (run p n' s') else 0
  | _, _ => 0
  end.

(** A text the phone pattern can match: an optional ['+'] and then 7 to
    15 characters of the class. *)
Definition candidate (mt : jsstring) : Prop :=
  exists body,
    (mt = body \/ mt = code "+" :: body)
    /\ Forall (fun c => phone_class c = true) body
    /\ 7 <= List.length body <= 15.

(** The run of the class at the start of [s], when long enough. *)
Definition body_at (s : jsstring) : option jsstring :=
  let t := run phone_class 15 s in
  if 7 <=? t then Some (firstn t s) else None.

(** The pattern at the start of [s], in closed form. *)
Definition phone_at (s : jsstring) : option jsstring :=
  match s with
  | c :: s' =>
      if is_plus c then
        match body_at s' with
        | Some b => Some (c :: b)
        | None => body_at s
        end
      else body_at s
  | [] => None
  end.

(** [matches[0].replace(/[\s\-\(\)]/g, '')] on its own. *)
Definition strip_separators (mt : jsstring) : jsstring :=
  filter (fun c => negb (separator_class c)) mt.

(** [mt] is the text of the first match of the phone pattern in [s]:
    a candidate at the leftmost position where one starts, and the
    longest that starts there. *)
Definition first_match (s pre mt post : jsstring) : Prop :=
  s = pre ++ mt ++ post
  /\ candidate mt
  /\ (forall pre' mt' post',
         s = pre' ++ mt' ++ post' -> candidate mt' ->
         List.length pre <= List.length pre'
         /\ (List.length pre' = List.length pre ->
             List.length mt' <= List.length mt)).

(** ** Effects and states *)

(** The [window.open] calls among the effects, in order. *)
Fixpoint window_open_calls (effs : list Effect)
  : list (jsstring * jsstring) :=
  match effs with
  | [] => []
  | EWindowOpen url target :: effs' =>
      (url, target) :: window_open_calls effs'
  | _ :: effs' => window_open_calls effs'
  end.

Definition toast_call_triggered (phoneNumber : jsstring) : Toast :=
  {| title := js "Phone Call Triggered";
     description := js "Would call: " ++ phoneNumber;
     destructive := false;
     duration := Some 5000%Z |}.

Definition toast_call_failed (phoneNumber : jsstring) : Toast :=
  {| title := js "Call Failed";
     description := js "Could not initiate call to " ++ phoneNumber;
     destructive := true;
     duration := None |}.

Definition toast_detected (phoneNumber : jsstring) : Toast :=
  {| title := js "Phone Number Detected";
     description := js "Calling " ++ phoneNumber ++ js "...";
     destructive := false;
     duration := None |}.

Definition toast_subscription_failed (topic : jsstring) : Toast :=
  {| title := js "Subscription Failed";
     description := js "Could not subscribe to topic: " ++ topic;
     destructive := true;
     duration := None |}.

Definition toast_disconnected : Toast :=
  {| title := js "Disconnected";
     description := js "MQTT connection closed";
     destructive := false;
     duration := None |}.

Definition with_messages (l : list MqttMessage) (st : State) : State :=
  mkState (isConnected st) l (config st) (showSettings st) (clientRef st).

Section Vocabulary.

Variable hostname : jsstring.
Variable window_open_completion : jsstring -> jsstring -> Completion unit.
Variable Buffer : Type.
Variable Buffer_toString : Buffer -> jsstring.

(** What a call of the trigger does to the outside. *)
Definition call_effects (phoneNumber : jsstring) : list Effect :=
  if is_dev_host hostname then
    [EToast (toast_call_triggered phoneNumber);
     EConsoleLog (js "Would make call to: " ++ phoneNumber)]
  else
    EWindowOpen (js "tel:" ++ phoneNumber) (js "_system")
    :: match window_open_completion (js "tel:" ++ phoneNumber)
                                    (js "_system") with
       | Normal _ => []
       | Throw _ => [EToast (toast_call_failed phoneNumber)]
       end.

(** The message events of a list of (topic, payload, receipt time). *)
Definition message_events (msgs : list (jsstring * Buffer * Date))
  : list (TransportEvent Buffer) :=
  List.map (fun x => EvMessage (fst (fst x)) (snd (fst x)) (snd x)) msgs.

(** The records the handler builds for them, oldest first. *)
Definition records (msgs : list (jsstring * Buffer * Date))
  : list MqttMessage :=
  List.map (fun x => build_message Buffer_toString (fst (fst x)) (snd (fst x)) (snd x)) msgs.

End Vocabulary.

(** ** Concrete inputs *)

Definition example_hostname : jsstring := js "dialer.example.org".

Definition example_window_open (url target : jsstring) : Completion unit :=
  Normal tt.

Definition example_toString (payload : jsstring) : jsstring := payload.

Definition example_client : MqttClient :=
  {| client_url := mkUrl (js "ws") (js "broker.hivemq.com") 8000;
     client_options :=
       {| keepalive := 60;
          clientId := js "mqtt_dialer_8a3f";
          protocolId := js "MQTT";
          protocolVersion := 4;
          clean := true;
          reconnectPeriod := 1000;
          connectTimeout := 30000;
          opt_username := None;
          opt_password := None |};
     closure_config := initial_config |}.

(** Fifty-one payloads, received at the times 0 to 50. *)
Definition example_msgs : list (jsstring * jsstring * Date) :=
  List.map (fun i => (js "dialer/phone", js "ping", Z.of_nat i)) (seq 0 51).

(** * The form, the view and the user *)

(** ** Numbers read from text *)

Module JsNumber.

(** The Numbers [parseInt] returns: not a number, an infinity, or a
    finite double whose value is an integer ([Num z] holds that value;
    minus zero is [Num 0]). *)
Inductive number : Type :=
| NaN
| Infinity (negative : bool)
| Num (z : Z).

(** Leading white space, as [parseInt] skips it. *)
Fixpoint trim_start (s : jsstring) : jsstring :=
  match s with
  | c :: s' => if is_space c then trim_start s' else s
  | [] => []
  end.

(** The value of [c] as a digit in the given radix. *)
Definition digit_value (radix : Z) (c : char16) : option Z :=
  let v :=
    if in_range 48%N 57%N c then Some (Z.of_N c - 48)%Z
    else if in_range 97%N 122%N c then Some (Z.of_N c - 97 + 10)%Z
    else if in_range 65%N 90%N c then Some (Z.of_N c - 65 + 10)%Z
    else None in
  match v with
  | Some d => if (d <? radix)%Z then Some d else None
  | None => None
  end.

(** The longest prefix of digits, as an integer; [seen] tells that a
    digit was read. *)
Fixpoint parse_digits (radix acc : Z) (seen : bool) (s : jsstring)
  : option Z :=
  match s with
  | c :: s' =>
      match digit_value radix c with
      | Some d => parse_digits radix (acc * radix + d)%Z true s'
      | None => if seen then Some acc else None
      end
  | [] => if seen then Some acc else None
  end.

(** The double nearest to the integer [m >= 0], as an integer: [m] itself
    when it fits in 53 bits, and else its 53 leading bits rounded to
    nearest, ties to even. *)
Definition nearest_double (m : Z) : Z :=
  let bits := (Z.log2 m + 1)%Z in
  if (bits <=? 53)%Z then m
  else
    let e := (bits - 53)%Z in
    let q := Z.shiftr m e in
    let r := (m - Z.shiftl q e)%Z in
    let half := Z.shiftl 1 (e - 1) in
    let q' :=
      if (half <? r)%Z || ((r =? half)%Z && Z.odd q) then (q + 1)%Z else q in
    Z.shiftl q' e.

(** The Number for the integer of sign [negative] and magnitude [m]: the
    nearest double, an infinity when that is beyond the largest double. *)
Definition to_number (negative : bool) (m : Z) : number :=
  let v := nearest_double m in
  if (2 ^ 1024 <=? v)%Z then Infinity negative
  else Num (if negative then (- v)%Z else v).

(** [parseInt(text)], without a radix argument.  All the digits read
    count, as the standard allows. *)
Definition parseInt (text : jsstring) : number :=
  let s := trim_start text in
  let (negative, s) :=
    match s with
    | c :: s' =>
        if is_char "-"%char c then (true, s')
        else if is_char "+"%char c then (false, s')
        else (false, s)
    | [] => (false, s)
    end in
  let (radix, s) :=
    match s with
    | z :: x :: s' =>
        if is_char "0"%char z && (is_char "x"%char x || is_char "X"%char x)
        then (16%Z, s')
        else (10%Z, s)
    | _ => (10%Z, s)
    end in
  match parse_digits radix 0 false s with
  | Some m => to_number negative m
  | None => NaN
  end.

(** [v || d] on numbers, as the integer the port of the state holds:
    [NaN] and zero are falsy; a finite Number is held by its value, and
    an infinity, which no finite double reaches, by plus or minus
    [2 ^ 1024], the integer the overflowing double would have. *)
Definition number_or (v : number) (d : Z) : Z :=
  match v with
  | Num z => if (z =? 0)%Z then d else z
  | Infinity negative => if negative then (- 2 ^ 1024)%Z else (2 ^ 1024)%Z
  | NaN => d
  end.

End JsNumber.
Import JsNumber.

(** ** The settings form *)

(** [setConfig(prev => f prev)] *)
Definition setConfig (f : MqttConfig -> MqttConfig) : Act unit :=
  modify (fun st => mkState (isConnected st) (messages st) (f (config st))
                            (showSettings st) (clientRef st)).

(** The [onChange] handlers of the five inputs; [value] is
    [e.target.value]. *)
Definition on_change_broker (value : jsstring) : Act unit :=
  setConfig (fun prev => mkMqttConfig value (port prev) (cfg_topic prev)
                                      (username prev) (password prev)).

Definition on_change_port (value : jsstring) : Act unit :=
  setConfig (fun prev => mkMqttConfig (broker prev)
                                      (number_or (parseInt value) 8000)
                                      (cfg_topic prev)
                                      (username prev) (password prev)).

Definition on_change_topic (value : jsstring) : Act unit :=
  setConfig (fun prev => mkMqttConfig (broker prev) (port prev) value
                                      (username prev) (password prev)).

Definition on_change_username (value : jsstring) : Act unit :=
  setConfig (fun prev => mkMqttConfig (broker prev) (port prev)
                                      (cfg_topic prev)
                                      (Some value) (password prev)).

Definition on_change_password (value : jsstring) : Act unit :=
  setConfig (fun prev => mkMqttConfig (broker prev) (port prev)
                                      (cfg_topic prev)
                                      (username prev) (Some value)).

(** [() => setShowSettings(!showSettings)] *)
Definition toggle_settings : Act unit :=
  st <- get ;;
  setShowSettings (negb (showSettings st)).

(** ** The view *)

(** What the component returns, as far as it depends on the state. *)

Inductive MainButton : Type :=
| ConnectButton       (* [onClick={connectToMqtt}] *)
| DisconnectButton.   (* [onClick={disconnect}] *)

(** The settings card: the five inputs, the main button and the button
    that toggles the card. *)
Record SettingsPanel : Type := mkSettingsPanel {
  field_broker : jsstring;
  field_port : Z;
  field_topic : jsstring;
  field_username : option jsstring;
  field_password : option jsstring;
  main_button : MainButton
}.

(** One message of the list; [entry_called] is the "Called:" badge. *)
Record Entry : Type := mkEntry {
  entry_topic : jsstring;
  entry_time : Date;              (* shown by [toLocaleTimeString()] *)
  entry_text : jsstring;
  entry_called : option jsstring
}.

Inductive MessagesBody : Type :=
| Waiting (on_topic : jsstring)
| Entries (entries : list Entry).

Record MessagesPanel : Type := mkMessagesPanel {
  count_badge : nat;              (* [messages.length] *)
  panel_body : MessagesBody
}.

Record View : Type := mkView {
  status_badge : jsstring;
  settings_panel : option SettingsPanel;
  messages_panel : option MessagesPanel
}.

Definition render_entry (msg : MqttMessage) : Entry :=
  {| entry_topic := topic msg;
     entry_time := timestamp msg;
     entry_text := message msg;
     entry_called := if_truthy (phoneNumber msg) (fun n => Some n) None |}.

Definition render (st : State) : View :=
  {| status_badge :=
       if isConnected st then js "Connected" else js "Disconnected";
     settings_panel :=
       if showSettings st || negb (isConnected st) then
         Some {| field_broker := broker (config st);
                 field_port := port (config st);
                 field_topic := cfg_topic (config st);
                 field_username := username (config st);
                 field_password := password (config st);
                 main_button :=
                   if negb (isConnected st) then ConnectButton
                   else DisconnectButton |}
       else None;
     messages_panel :=
       if isConnected st then
         Some {| count_badge := List.length (messages st);
                 panel_body :=
                   if List.length (messages st) =? 0
                   then Waiting (cfg_topic (config st))
                   else Entries (List.map render_entry (messages st)) |}
       else None |}.

(** ** The user *)

(** What the user can do to the page; [random_hex] is the value of
    [Math.random().toString(16)] at that click. *)
Inductive UserAction : Type :=
| EditBroker (value : jsstring)
| EditPort (value : jsstring)
| EditTopic (value : jsstring)
| EditUsername (value : jsstring)
| EditPassword (value : jsstring)
| ClickConnect (random_hex : jsstring)
| ClickDisconnect
| ClickSettings.

(** Whether the view holds the control of the action: every control is
    in the settings card. *)
Definition offered (v : View) (a : UserAction) : bool :=
  match settings_panel v with
  | None => false
  | Some p =>
      match a, main_button p with
      | ClickConnect _, ConnectButton => true
      | ClickConnect _, DisconnectButton => false
      | ClickDisconnect, DisconnectButton => true
      | ClickDisconnect, ConnectButton => false
      | _, _ => true
      end
  end.

Section Interface.

Variable hostname : jsstring.
Variable window_open_completion : jsstring -> jsstring -> Completion unit.
Variable mqtt_connect_completion : Url -> IClientOptions -> Completion unit.
Variable Buffer : Type.
Variable Buffer_toString : Buffer -> jsstring.

(** The handler behind each control. *)
Definition on_user (a : UserAction) : Act unit :=
  match a with
  | EditBroker value => on_change_broker value
  | EditPort value => on_change_port value
  | EditTopic value => on_change_topic value
  | EditUsername value => on_change_username value
  | EditPassword value => on_change_password value
  | ClickConnect random_hex =>
      connectToMqtt mqtt_connect_completion random_hex
  | ClickDisconnect => disconnect
  | ClickSettings => toggle_settings
  end.

(** What happens to the mounted component: the user acts on it, or the
    transport calls a handler of one of the clients. *)
Inductive Input : Type :=
| User (a : UserAction)
| Transport (client : MqttClient) (ev : TransportEvent Buffer).

(** One input on the current state; an action whose control the current
    view does not hold cannot be taken. *)
Definition react (i : Input) : Act unit :=
  match i with
  | User a =>
      fun st => if offered (render st) a then on_user a st else ret tt st
  | Transport client ev =>
      handle hostname window_open_completion Buffer_toString client ev
  end.

(** The inputs one after the other, each handler run to its end on the
    state the previous one left. *)
Fixpoint run_inputs (inputs : list Input) (st : State)
  : list Effect * State :=
  match inputs with
  | [] => ([], st)
  | i :: inputs' =>
      let o := react i st in
      let (effs, st') := run_inputs inputs' (final o) in
      (effects o ++ effs, st')
  end.

End Interface.

(** ** The packaged application *)

(** [capacitor.config.ts] *)
Record CapacitorConfig : Type := mkCapacitorConfig {
  appId : jsstring;
  appName : jsstring;
  webDir : jsstring;
  server_url : jsstring;
  server_cleartext : bool;
  splash_launchShowDuration : Z
}.

Definition capacitor_config : CapacitorConfig :=
  {| appId := js "app.lovable.2e4dac08ba784b9d91e10d063f2efc91";
     appName := js "mqtt-dialer-bot";
     webDir := js "dist";
     server_url :=
       js "https://2e4dac08-ba78-4b9d-91e1-0d063f2efc91.lovableproject.com?forceHideBadge=true";
     server_cleartext := true;
     splash_launchShowDuration := 0 |}.

(** ** Vocabulary of the further properties *)

(** The calls of [client.end()] among the effects. *)
Definition count_ends (effs : list Effect) : nat :=
  List.length
    (filter (fun e => match e with EClientEnd => true | _ => false end) effs).

(** The calls of [mqtt.connect] among the effects. *)
Definition count_connects (effs : list Effect) : nat :=
  List.length
    (filter (fun e => match e with EMqttConnect _ _ => true | _ => false end)
            effs).

(** The notifications among the effects. *)
Fixpoint toasts (effs : list Effect) : list Toast :=
  match effs with
  | [] => []
  | EToast t :: effs' => t :: toasts effs'
  | _ :: effs' => toasts effs'
  end.

Definition toast_connection_failed : Toast :=
  {| title := js "Connection Failed";
     description := js "Could not connect to MQTT broker";
     destructive := true;
     duration := None |}.

Definition toast_connection_error (err : JsError) : Toast :=
  {| title := js "Connection Error";
     description := err;
     destructive := true;
     duration := None |}.

(** A record as the ['message'] handler builds it from its payload. *)
Definition record_consistent (r : MqttMessage) : Prop :=
  phoneNumber r = or_undefined (extractPhoneNumber (message r)).

(** A number worth a "Called:" badge: not empty, an optional ['+'] and
    then digits, 15 at most. *)
Definition dialable (n : jsstring) : Prop :=
  n <> []
  /\ exists digits,
      (n = digits \/ n = code "+" :: digits)
      /\ Forall (fun c => is_digit c = true) digits
      /\ List.length digits <= 15.

(** The target and the options [connectToMqtt] builds from a
    configuration. *)
Definition target_url (cfg : MqttConfig) : Url :=
  mkUrl (if (port cfg =? 8884)%Z then js "wss" else js "ws")
        (broker cfg) (port cfg).

Definition target_options (cfg : MqttConfig) (random_hex : jsstring)
  : IClientOptions :=
  {| keepalive := 60;
     clientId := js "mqtt_dialer_" ++ skipn 3 random_hex;
     protocolId := js "MQTT";
     protocolVersion := 4;
     clean := true;
     reconnectPeriod := 1000;
     connectTimeout := 30000;
     opt_username := if_truthy (username cfg) (fun u => Some u) None;
     opt_password := if_truthy (username cfg) (fun _ => password cfg) None |}.

(** The host name of an absolute URL that names neither a user nor a
    port: what stands between [://] and the first [/], [?] or [#]. *)
Fixpoint after_scheme (s : jsstring) : jsstring :=
  match s with
  | c :: s' =>
      if starts_with (js "://") s then skipn 3 s else after_scheme s'
  | [] => []
  end.

Fixpoint up_to_path (s : jsstring) : jsstring :=
  match s with
  | c :: s' =>
      if is_char "/"%char c || is_char "?"%char c || is_char "#"%char c
      then []
      else c :: up_to_path s'
  | [] => []
  end.

Definition url_hostname (url : jsstring) : jsstring :=
  up_to_path (after_scheme url).

Definition with_clientRef (v : option MqttClient) (st : State) : State :=
  mkState (isConnected st) (messages st) (config st) (showSettings st) v.

(** What every state the page can reach satisfies: the settings card is
    hidden while the status is Connected, the log holds at most 50
    records, each as the handler builds it, and the port is not zero. *)
Definition session_invariant (st : State) : Prop :=
  isConnected st && showSettings st = false
  /\ List.length (messages st) <= 50
  /\ Forall record_consistent (messages st)
  /\ port (config st) <> 0%Z.

(** The first position of [s], from the left, where the phone pattern
    matches, as the text matched there. *)
Fixpoint first_hit (s : jsstring) : option jsstring :=
  match phone_at s with
  | Some mt => Some mt
  | None =>
      match s with
      | [] => None
      | _ :: s' => first_hit s'
      end
  end.

(** The integer a text of decimal digits writes. *)
Definition decimal_value (digits : jsstring) : Z :=
  fold_left (fun acc c => (acc * 10 + (Z.of_N c - 48))%Z) digits 0%Z.

(** Events that only notify. *)
Definition is_notice {Buffer : Type} (ev : TransportEvent Buffer) : bool :=
  match ev with
  | EvSubscribed _ _ | EvError _ _ => true
  | _ => false
  end.

(** * Properties *)

Unset Implicit Arguments.

(** ** The matcher on the two patterns of the source *)

Section Run.

Variable p : char16 -> bool.

Lemma run_le_bound : forall n s, run p n s <= n.
Proof.
  induction n as [|n IH]; intros [|c s]; simpl; try lia.
  destruct (p c); [specialize (IH s)|]; lia.
Qed.

Lemma run_le_length : forall n s, run p n s <= List.length s.
Proof.
  induction n as [|n IH]; intros [|c s]; simpl; try lia.
  destruct (p c); [specialize (IH s)|]; lia.
Qed.

Lemma run_in_class :
  forall n s, Forall (fun c => p c = true) (firstn (run p n s) s).
Proof.
  induction n as [|n IH]; intros [|c s]; simpl; try constructor.
  destruct (p c) eqn:E; simpl; constructor; auto.
Qed.

(** No prefix in the class and within the bound is longer. *)
Lemma run_longest :
  forall n b post,
    Forall (fun c => p c = true) b ->
    List.length b <= n ->
    List.length b <= run p n (b ++ post).
Proof.
  induction n as [|n IH]; intros b post Hb Hlen.
  - destruct b; simpl in *; lia.
  - destruct b as [|c b]; simpl in *; [lia|].
    inversion Hb as [|? ? Hc Hb']; subst. rewrite Hc.
    specialize (IH b post Hb'). lia.
Qed.

Lemma split_at_run :
  forall n s, s = firstn (run p n s) s ++ skipn (run p n s) s.
Proof. intros. symmetry. apply firstn_skipn. Qed.

(** The greedy repetition of a character set, when whatever follows
    accepts: the longest run, provided it reaches the minimum. *)
Lemma repeat_charset :
  forall hi lo s,
    repeat_matcher (matcher (CharSet p)) lo hi s (fun rest => Some rest)
    = if lo <=? run p hi s then Some (skipn (run p hi s) s) else None.
Proof.
  induction hi as [|hi IH]; intros lo s.
  - simpl. destruct lo; reflexivity.
  - destruct s as [|c s].
    + simpl. destruct lo; reflexivity.
    + cbn [repeat_matcher matcher run]. destruct (p c) eqn:Hc.
      * replace (List.length s =? List.length (c :: s)) with false
          by (symmetry; apply Nat.eqb_neq; simpl; lia).
        rewrite andb_false_r, IH.
        destruct (pred lo <=? run p hi s) eqn:Hle.
        -- apply Nat.leb_le in Hle.
           replace (lo <=? S (run p hi s)) with true
             by (symmetry; apply Nat.leb_le; lia).
           reflexivity.
        -- apply Nat.leb_gt in Hle.
           replace (lo <=? S (run p hi s)) with false
             by (symmetry; apply Nat.leb_gt; lia).
           destruct lo; [lia | reflexivity].
      * destruct lo; reflexivity.
Qed.

Lemma match_at_charset :
  forall s,
    match_at (CharSet p) s
    = match s with
      | c :: _ => if p c then Some [c] else None
      | [] => None
      end.
Proof.
  intros [|c s]; unfold match_at; cbn [matcher]; [reflexivity|].
  destruct (p c); [|reflexivity].
  replace (List.length (c :: s) - List.length s) with 1
    by (cbn [List.length]; lia).
  reflexivity.
Qed.

(** Replacing every member of a character set by nothing filters it
    out. *)
Lemma replace_charset_empty :
  forall s,
    String_replace s (CharSet p) [] = filter (fun c => negb (p c)) s.
Proof.
  unfold String_replace.
  induction s as [|c s IH].
  - reflexivity.
  - cbn [replace_from]. rewrite match_at_charset.
    cbn [filter]. destruct (p c); simpl; rewrite IH; reflexivity.
Qed.

End Run.

(** ** What the phone pattern matches *)

Lemma is_plus_code : forall c, is_plus c = true -> c = code "+".
Proof. intros c H. apply N.eqb_eq in H. exact H. Qed.

Lemma plus_not_in_class : forall c, is_plus c = true -> phone_class c = false.
Proof. intros c H. apply is_plus_code in H. subst. reflexivity. Qed.

Lemma class_tail_at :
  forall s,
    matcher (Rep (CharSet phone_class) 7 15) s (fun rest => Some rest)
    = if 7 <=? run phone_class 15 s
      then Some (skipn (run phone_class 15 s) s) else None.
Proof. intro s. cbn [matcher]. apply repeat_charset. Qed.

Lemma taken_length :
  forall (p : char16 -> bool) n (s : jsstring),
    List.length s - List.length (skipn (run p n s) s) = run p n s.
Proof.
  intros p n s. rewrite length_skipn.
  pose proof (run_le_length p n s). lia.
Qed.

(** [\+?] in front of a continuation [k]: the ['+'] when it is there
    and [k] accepts what follows it, else nothing. *)
Lemma optional_plus :
  forall s k,
    matcher (Opt (CharSet is_plus)) s k
    = match
        match s with
        | c :: s' => if is_plus c then k s' else None
        | [] => None
        end
      with
      | Some rest => Some rest
      | None => k s
      end.
Proof.
  intros [|c s'] k; unfold Opt; cbn [matcher repeat_matcher Nat.eqb andb];
    [reflexivity|].
  destruct (is_plus c); [|reflexivity].
  replace (List.length s' =? List.length (c :: s')) with false
    by (symmetry; apply Nat.eqb_neq; cbn [List.length]; lia).
  reflexivity.
Qed.

Lemma match_at_phoneRegex : forall s, match_at phoneRegex s = phone_at s.
Proof.
  intro s. unfold match_at, phoneRegex.
  change (matcher (Group (Cat (Opt (CharSet is_plus))
                              (Rep (CharSet phone_class) 7 15))) s
                  (fun rest => Some rest))
    with (matcher (Opt (CharSet is_plus)) s
                  (fun s1 => matcher (Rep (CharSet phone_class) 7 15) s1
                                     (fun rest => Some rest))).
  rewrite optional_plus. unfold phone_at, body_at.
  destruct s as [|c s'].
  - rewrite class_tail_at. reflexivity.
  - destruct (is_plus c) eqn:Hplus.
    + rewrite !class_tail_at.
      destruct (7 <=? run phone_class 15 s') eqn:Htail.
      * f_equal.
        replace (List.length (c :: s')
                 - List.length (skipn (run phone_class 15 s') s'))
          with (S (run phone_class 15 s')).
        -- reflexivity.
        -- pose proof (run_le_length phone_class 15 s').
           rewrite length_skipn. cbn [List.length]. lia.
      * destruct (7 <=? run phone_class 15 (c :: s')) eqn:Hhere;
          [|reflexivity].
        rewrite taken_length. reflexivity.
    + rewrite class_tail_at.
      destruct (7 <=? run phone_class 15 (c :: s')) eqn:Hhere;
        [|reflexivity].
      rewrite taken_length. reflexivity.
Qed.

Lemma body_at_some :
  forall s b,
    body_at s = Some b ->
    b = firstn (run phone_class 15 s) s
    /\ Forall (fun c => phone_class c = true) b
    /\ 7 <= List.length b <= 15
    /\ List.length b = run phone_class 15 s.
Proof.
  unfold body_at. intros s b H.
  destruct (7 <=? run phone_class 15 s) eqn:Hle; [|discriminate].
  assert (Hb : b = firstn (run phone_class 15 s) s) by congruence.
  clear H. subst b. apply Nat.leb_le in Hle.
  pose proof (run_le_bound phone_class 15 s).
  pose proof (run_le_length phone_class 15 s).
  split; [reflexivity|]. split; [apply run_in_class|].
  rewrite length_firstn. lia.
Qed.

Lemma body_at_none :
  forall s b post,
    body_at s = None ->
    s = b ++ post ->
    Forall (fun c => phone_class c = true) b ->
    List.length b <= 15 ->
    List.length b < 7.
Proof.
  unfold body_at. intros s b post H -> Hb Hlen.
  destruct (7 <=? run phone_class 15 (b ++ post)) eqn:Hle; [discriminate|].
  apply Nat.leb_gt in Hle.
  pose proof (run_longest phone_class 15 b post Hb Hlen). lia.
Qed.

(** At one position the matcher returns a candidate, and the longest
    one that starts there. *)
Lemma phone_at_some :
  forall s mt,
    phone_at s = Some mt ->
    (exists post, s = mt ++ post)
    /\ candidate mt
    /\ (forall mt' post', s = mt' ++ post' -> candidate mt' ->
        List.length mt' <= List.length mt).
Proof.
  intros s mt H. destruct s as [|c s']; [discriminate|].
  cbn [phone_at] in H. destruct (is_plus c) eqn:Hplus.
  - destruct (body_at s') as [b|] eqn:Hb.
    + injection H as <-.
      destruct (body_at_some _ _ Hb) as (Hbeq & Hcls & Hlen & Hrun).
      split; [|split].
      * exists (skipn (run phone_class 15 s') s').
        rewrite Hbeq. cbn [app]. f_equal. apply split_at_run.
      * exists b. rewrite (is_plus_code _ Hplus). auto.
      * intros mt' post' Hs (body' & Hshape & Hcls' & Hlen').
        destruct Hshape as [-> | ->].
        -- destruct body' as [|c' body']; [simpl in Hlen'; lia|].
           injection Hs as <- _. inversion Hcls'; subst.
           rewrite (plus_not_in_class _ Hplus) in *. discriminate.
        -- injection Hs as _ ->. cbn [List.length].
           pose proof (run_longest phone_class 15 body' post' Hcls' (proj2 Hlen')).
           lia.
    + unfold body_at in H. cbn [run] in H.
      rewrite (plus_not_in_class _ Hplus) in H. discriminate.
  - destruct (body_at_some _ _ H) as (Hbeq & Hcls & Hlen & Hrun).
    split; [|split].
    + exists (skipn (run phone_class 15 (c :: s')) (c :: s')).
      rewrite Hbeq. apply split_at_run.
    + exists mt. auto.
    + intros mt' post' Hs (body' & Hshape & Hcls' & Hlen').
      destruct Hshape as [-> | ->].
      * rewrite Hs in Hrun.
        pose proof (run_longest phone_class 15 body' post' Hcls' (proj2 Hlen')).
           lia.
      * injection Hs as Hc _. subst c. discriminate.
Qed.

(** Where the matcher fails no candidate starts. *)
Lemma phone_at_none :
  forall s mt post,
    phone_at s = None -> s = mt ++ post -> ~ candidate mt.
Proof.
  intros s mt post H Hs (body & Hshape & Hcls & Hlen).
  destruct s as [|c s'].
  - destruct Hshape as [-> | ->]; [|discriminate].
    destruct body; [simpl in Hlen; lia | discriminate].
  - cbn [phone_at] in H. destruct (is_plus c) eqn:Hplus.
    + destruct (body_at s') as [b|] eqn:Hb; [discriminate|].
      destruct Hshape as [-> | ->].
      * pose proof (body_at_none _ _ _ H Hs Hcls (proj2 Hlen)). lia.
      * injection Hs as _ Hs'.
        pose proof (body_at_none _ _ _ Hb Hs' Hcls (proj2 Hlen)). lia.
    + destruct Hshape as [-> | ->].
      * pose proof (body_at_none _ _ _ H Hs Hcls (proj2 Hlen)). lia.
      * injection Hs as Hc _. subst c. discriminate.
Qed.

(** The first element of the array of matches is the match at the
    leftmost position where the pattern matches. *)
Lemma first_of_match_all :
  forall (r : regex) (s : jsstring),
    match match_all_from r 0 s with
    | m0 :: _ =>
        exists pre rest,
          s = pre ++ rest
          /\ match_at r rest = Some m0
          /\ (forall pre' rest',
                 s = pre' ++ rest' ->
                 List.length pre' < List.length pre ->
                 match_at r rest' = None)
    | [] =>
        forall pre' rest', s = pre' ++ rest' -> match_at r rest' = None
    end.
Proof.
  intros r. induction s as [|c s IH].
  - cbn [match_all_from]. destruct (match_at r []) as [mt|] eqn:H0.
    + exists [], []. repeat split; auto. simpl. intros; lia.
    + intros pre' rest' Hs. symmetry in Hs.
      apply app_eq_nil in Hs as [_ ->]. exact H0.
  - cbn [match_all_from]. destruct (match_at r (c :: s)) as [mt|] eqn:H0.
    + exists [], (c :: s). repeat split; auto. simpl. intros; lia.
    + destruct (match_all_from r 0 s) as [|m0 ms].
      * intros [|c' pre'] rest' Hs.
        -- simpl in Hs. subst rest'. exact H0.
        -- injection Hs as _ Hs. eauto.
      * destruct IH as (pre & rest & -> & Hm & Hmin).
        exists (c :: pre), rest. repeat split; auto.
        intros [|c' pre'] rest' Hs Hlt.
        -- simpl in Hs. subst rest'. exact H0.
        -- injection Hs as _ Hs. apply (Hmin pre' rest' Hs).
           simpl in Hlt. lia.
Qed.

Lemma app_same_length :
  forall (A : Type) (a a' b b' : list A),
    a ++ b = a' ++ b' -> List.length a = List.length a' ->
    a = a' /\ b = b'.
Proof.
  intros A. induction a as [|x a IH]; intros [|x' a'] b b' H Hlen;
    simpl in *; try discriminate; auto.
  injection H as -> H. destruct (IH a' b b' H) as [-> ->]; auto.
Qed.

(** The extractor in terms of the first match. *)
Lemma extractPhoneNumber_cases :
  forall s,
    match extractPhoneNumber s with
    | Some r => exists pre mt post, first_match s pre mt post /\ r = strip_separators mt
    | None => forall pre mt post, s = pre ++ mt ++ post -> ~ candidate mt
    end.
Proof.
  intro s. unfold extractPhoneNumber, String_match.
  pose proof (first_of_match_all phoneRegex s) as H.
  destruct (match_all_from phoneRegex 0 s) as [|m0 ms].
  - intros pre mt post Hs. specialize (H pre (mt ++ post) Hs).
    rewrite match_at_phoneRegex in H.
    exact (phone_at_none _ mt post H eq_refl).
  - destruct H as (pre & rest & Hs & Hm & Hmin).
    rewrite match_at_phoneRegex in Hm.
    destruct (phone_at_some _ _ Hm) as ((post & Hrest) & Hcand & Hlong).
    exists pre, m0, post. split.
    + split; [congruence|]. split; [exact Hcand|].
      intros pre' mt' post' Hs' Hcand'.
      assert (Hle : List.length pre <= List.length pre').
      { destruct (Nat.le_gt_cases (List.length pre) (List.length pre'))
          as [Hle|Hlt]; [exact Hle|].
        specialize (Hmin pre' (mt' ++ post') Hs' Hlt).
        rewrite match_at_phoneRegex in Hmin.
        destruct (phone_at_none _ mt' post' Hmin eq_refl Hcand'). }
      split; [exact Hle|]. intro Heq.
      rewrite Hs in Hs'.
      destruct (app_same_length _ _ _ _ _ Hs' (eq_sym Heq)) as [_ Hr].
      exact (Hlong mt' post' Hr Hcand').
    + unfold cleanRegex. apply replace_charset_empty.
Qed.

Lemma strip_has_no_separator :
  forall mt, Forall (fun c => separator_class c = false) (strip_separators mt).
Proof.
  intro mt. apply Forall_forall. intros c Hin.
  apply filter_In in Hin as [_ Hc]. apply negb_true_iff in Hc. exact Hc.
Qed.

Lemma separator_class_false :
  forall c,
    separator_class c = false ->
    is_space c = false /\ c <> code "-" /\ c <> code "(" /\ c <> code ")".
Proof.
  intros c H. unfold separator_class in H.
  apply orb_false_iff in H as [H Hr].
  apply orb_false_iff in H as [H Hl].
  apply orb_false_iff in H as [H Hh].
  split; [exact H|].
  repeat split; intro Hc; subst c; discriminate.
Qed.

Lemma phone_class_split :
  forall c, phone_class c = is_digit c || separator_class c.
Proof.
  intro c. unfold phone_class, separator_class.
  destruct (is_digit c), (is_space c), (is_hyphen c), (is_lparen c);
    reflexivity.
Qed.

(** Cleaning a run of the class leaves digits only. *)
Lemma strip_class_digits :
  forall body,
    Forall (fun c => phone_class c = true) body ->
    Forall (fun c => is_digit c = true) (strip_separators body).
Proof.
  intros body H. apply Forall_forall. intros c Hin.
  apply filter_In in Hin as [Hin Hc]. apply negb_true_iff in Hc.
  rewrite Forall_forall in H. specialize (H c Hin).
  rewrite phone_class_split, Hc, orb_false_r in H. exact H.
Qed.

(** ** The extractor *)

(** C1, amended: for every string [s], the extractor either returns a
    string [r] or the "not found" value, never an error.  When it returns
    [r], [s] contains a run of 7 to 15 characters of the class (digit,
    whitespace, hyphen, parenthesis); the match is such a run with a ['+']
    in front of it when the match starts with one, the ['+'] not being
    counted among the 7 to 15, so that the match holds 7 to 16 characters;
    it is the first match (leftmost, and longest at its position); [r] is
    the match with whitespace, hyphens and parentheses filtered out, and
    [r] holds no whitespace, hyphen or parenthesis.  When the extractor
    returns "not found", no such match occurs anywhere in [s]. *)
Theorem extractPhoneNumber_first_match_cleaned :
  forall s,
    match extractPhoneNumber s with
    | Some r =>
        (exists pre body post,
            s = pre ++ body ++ post
            /\ 7 <= List.length body <= 15
            /\ Forall (fun c => phone_class c = true) body)
        /\ (exists pre mt post,
               first_match s pre mt post
               /\ 7 <= List.length mt <= 16
               /\ r = strip_separators mt)
        /\ Forall (fun c => is_space c = false /\ c <> code "-"
                            /\ c <> code "(" /\ c <> code ")") r
    | None =>
        forall pre mt post, s = pre ++ mt ++ post -> ~ candidate mt
    end.
Proof.
  intro s. pose proof (extractPhoneNumber_cases s) as H.
  destruct (extractPhoneNumber s) as [r|]; [|exact H].
  destruct H as (pre & mt & post & Hfirst & ->).
  split; [|split].
  - destruct Hfirst as (Hs & (body & Hshape & Hcls & Hlen) & _).
    destruct Hshape as [-> | ->].
    + exists pre, body, post. auto.
    + exists (pre ++ [code "+"]), body, post.
      rewrite Hs, <- app_assoc. auto.
  - exists pre, mt, post. split; [exact Hfirst|]. split; [|reflexivity].
    destruct Hfirst as (_ & (body & Hshape & _ & Hlen) & _).
    destruct Hshape as [-> | ->]; cbn [List.length]; lia.
  - eapply Forall_impl; [|apply strip_has_no_separator].
    intros c Hc. apply separator_class_false. exact Hc.
Qed.

(** C1 as it was stated, with the ['+'] counted among the 7 to 15
    characters of the match, fails on a ['+'] followed by 15 digits: the
    extractor returns all 16 characters, and no substring of 7 to 15
    characters, whatever it is made of, cleans to that result. *)
Lemma extractPhoneNumber_match_of_sixteen :
  extractPhoneNumber (js "+123456789012345") = Some (js "+123456789012345")
  /\ ~ (exists pre m post,
           js "+123456789012345" = pre ++ m ++ post
           /\ 7 <= List.length m <= 15
           /\ strip_separators m = js "+123456789012345").
Proof.
  split; [vm_compute; reflexivity|].
  intros (pre & m & post & _ & [_ Hlen] & Hclean).
  pose proof (List.filter_length_le
                (fun c => negb (separator_class c)) m) as Hle.
  fold (strip_separators m) in Hle. rewrite Hclean in Hle.
  change (List.length (js "+123456789012345")) with 16 in Hle. lia.
Qed.

(** C8: the three examples of the specification. *)
Theorem extractPhoneNumber_examples :
  extractPhoneNumber (js "call me at (555) 123-4567 please")
  = Some (js "5551234567")
  /\ extractPhoneNumber (js "no digits here") = None
  /\ extractPhoneNumber (js "+1 800 555 0199") = Some (js "+18005550199").
Proof. repeat split; vm_compute; reflexivity. Qed.

Lemma digit_is_not_plus : forall c, is_digit c = true -> c <> code "+".
Proof. intros c H ->. discriminate. Qed.

(** C10: a string returned by the extractor is an optional leading ['+']
    followed by decimal digits only (so ['+'] occurs nowhere but in front);
    the digit part may be empty: on seven spaces the extractor returns the
    empty string. *)
Theorem extractPhoneNumber_plus_then_digits :
  forall s r,
    extractPhoneNumber s = Some r ->
    (exists digits,
        (r = digits \/ r = code "+" :: digits)
        /\ Forall (fun c => is_digit c = true) digits
        /\ Forall (fun c => c <> code "+") digits)
    /\ extractPhoneNumber (js "       ") = Some [].
Proof.
  intros s r H. split; [|vm_compute; reflexivity].
  pose proof (extractPhoneNumber_cases s) as Hc. rewrite H in Hc.
  destruct Hc as (pre & mt & post & (_ & Hcand & _) & ->).
  destruct Hcand as (body & Hshape & Hcls & _).
  exists (strip_separators body).
  pose proof (strip_class_digits body Hcls) as Hd.
  split; [|split].
  - destruct Hshape as [-> | ->]; [left; reflexivity|right; reflexivity].
  - exact Hd.
  - eapply Forall_impl; [|exact Hd]. exact digit_is_not_plus.
Qed.

(** ** The call trigger, the message log and the session *)

Section Session.

Variable hostname : jsstring.
Variable window_open_completion : jsstring -> jsstring -> Completion unit.
Variable Buffer : Type.
Variable Buffer_toString : Buffer -> jsstring.

Local Abbreviation dev := (is_dev_host hostname).
Local Abbreviation call := (makePhoneCall hostname window_open_completion).
Local Abbreviation build := (build_message Buffer_toString).
Local Abbreviation receive :=
  (on_message hostname window_open_completion Buffer_toString).
Local Abbreviation deliver :=
  (run_events hostname window_open_completion Buffer_toString).
Local Abbreviation handler :=
  (handle hostname window_open_completion Buffer_toString).
Local Abbreviation call_effects :=
  (call_effects hostname window_open_completion).
Local Abbreviation message_events := (@message_events Buffer).
Local Abbreviation records := (records Buffer_toString).

Lemma makePhoneCall_outcome :
  forall phoneNumber st,
    call phoneNumber st
    = mkOutcome (call_effects phoneNumber) st (Normal (Fulfilled tt)).
Proof.
  intros n st. unfold makePhoneCall, call_effects, async, try_catch.
  destruct dev.
  - reflexivity.
  - unfold window_open. cbn [completion effects final].
    destruct (window_open_completion (js "tel:" ++ n) (js "_system"))
      as [[]|e]; reflexivity.
Qed.

Lemma call_effects_not_nil : forall n, call_effects n <> [].
Proof. intro n. unfold call_effects. destruct dev; discriminate. Qed.

(** The ['message'] handler in one step. *)
Lemma on_message_outcome :
  forall topic message now st,
    receive topic message now st
    = mkOutcome
        (if_truthy (extractPhoneNumber (Buffer_toString message))
           (fun n => EToast (toast_detected n) :: call_effects n) [])
        (with_messages
           (build topic message now :: firstn 49 (messages st)) st)
        (Normal tt).
Proof.
  intros topic message now st. unfold on_message.
  destruct (extractPhoneNumber (Buffer_toString message)) as [[|c n]|] eqn:E;
    cbn [if_truthy]; try reflexivity.
  unfold bind.
  cbn [setMessages modify toast emit completion final effects].
  rewrite makePhoneCall_outcome.
  cbn [completion final effects ret app]. rewrite app_nil_r. reflexivity.
Qed.

(** *** The call trigger *)

(** C4: for every phone number the trigger completes normally, its promise
    fulfilled, and leaves the state alone.  On a development host it calls
    [window.open] never: it shows one notification and writes one log
    line.  On any other host it calls [window.open] once, with the [tel:]
    address of the number; when that call throws, the failure is caught
    and shown as a "Call Failed" notification.  A message in which a
    number is detected therefore leads to exactly one [window.open] on a
    production host and to none on a development host. *)
Theorem makePhoneCall_by_mode :
  forall phoneNumber st,
    let o := call phoneNumber st in
    completion o = Normal (Fulfilled tt)
    /\ final o = st
    /\ (if dev then
          effects o
          = [EToast (toast_call_triggered phoneNumber);
             EConsoleLog (js "Would make call to: " ++ phoneNumber)]
          /\ window_open_calls (effects o) = []
        else
          window_open_calls (effects o)
          = [(js "tel:" ++ phoneNumber, js "_system")]
          /\ effects o
             = EWindowOpen (js "tel:" ++ phoneNumber) (js "_system")
               :: match window_open_completion (js "tel:" ++ phoneNumber)
                                               (js "_system") with
                  | Normal _ => []
                  | Throw _ => [EToast (toast_call_failed phoneNumber)]
                  end)
    /\ (forall topic message now,
           window_open_calls (effects (receive topic message now st))
           = if dev then []
             else if_truthy (extractPhoneNumber (Buffer_toString message))
                    (fun n => [(js "tel:" ++ n, js "_system")]) []).
Proof.
  intros n st o. subst o. rewrite makePhoneCall_outcome.
  cbn [completion final effects].
  split; [reflexivity|]. split; [reflexivity|]. split.
  - unfold call_effects. destruct dev.
    + split; reflexivity.
    + destruct (window_open_completion (js "tel:" ++ n) (js "_system"));
        split; reflexivity.
  - intros topic message now. rewrite on_message_outcome.
    cbn [effects].
    destruct (extractPhoneNumber (Buffer_toString message)) as [[|c m]|];
      cbn [if_truthy]; try (destruct dev; reflexivity).
    unfold call_effects. destruct dev; [reflexivity|].
    destruct (window_open_completion (js "tel:" ++ c :: m) (js "_system"));
      reflexivity.
Qed.

(** *** The message log *)

Lemma firstn_app_firstn :
  forall (A : Type) (a : list A) n k (l : list A),
    n <= k -> firstn n (a ++ firstn k l) = firstn n (a ++ l).
Proof.
  intros A. induction a as [|x a IH]; intros n k l Hle.
  - cbn [app]. rewrite firstn_firstn. f_equal. lia.
  - destruct n as [|n]; [reflexivity|].
    cbn [app firstn]. f_equal. apply IH. lia.
Qed.

Lemma handle_messages :
  forall client ev st,
    messages (final (handler client ev st))
    = match ev with
      | EvMessage topic message now =>
          build topic message now :: firstn 49 (messages st)
      | _ => messages st
      end.
Proof.
  intros client [|[e|]|topic message now|e|] st; cbn [handle];
    try reflexivity.
  rewrite on_message_outcome. reflexivity.
Qed.

Lemma deliver_cons :
  forall client ev evs st,
    snd (deliver client (ev :: evs) st)
    = snd (deliver client evs (final (handler client ev st))).
Proof.
  intros client ev evs st. cbn [run_events].
  destruct (deliver client evs (final (handler client ev st))).
  reflexivity.
Qed.

Lemma deliver_app :
  forall client a b st,
    snd (deliver client (a ++ b) st)
    = snd (deliver client b (snd (deliver client a st))).
Proof.
  intros client. induction a as [|ev a IH]; intros b st.
  - reflexivity.
  - cbn [app]. rewrite !deliver_cons. apply IH.
Qed.

Lemma push_bounded :
  forall (b : MqttMessage) l, List.length (b :: firstn 49 l) <= 50.
Proof.
  intros b l. cbn [List.length]. rewrite length_firstn. lia.
Qed.

Lemma log_after_messages :
  forall client msgs st,
    List.length (messages st) <= 50 ->
    messages (snd (deliver client (message_events msgs) st))
    = firstn 50 (rev (records msgs) ++ messages st).
Proof.
  intros client. induction msgs as [|x msgs IH]; intros st Hst.
  - cbn [message_events records List.map rev app run_events snd].
    symmetry. apply firstn_all2. exact Hst.
  - cbn [message_events records List.map rev].
    fold (message_events msgs). fold (records msgs).
    rewrite deliver_cons, IH, handle_messages.
    + change (build (fst (fst x)) (snd (fst x)) (snd x)
              :: firstn 49 (messages st))
        with (firstn 50 (build (fst (fst x)) (snd (fst x)) (snd x)
                         :: messages st)).
      rewrite firstn_app_firstn by lia.
      rewrite <- app_assoc. reflexivity.
    + rewrite handle_messages. apply push_bounded.
Qed.

Lemma log_stays_bounded :
  forall client evs st,
    List.length (messages st) <= 50 ->
    List.length (messages (snd (deliver client evs st))) <= 50.
Proof.
  intros client. induction evs as [|ev evs IH]; intros st Hst.
  - exact Hst.
  - rewrite deliver_cons. apply IH. rewrite handle_messages.
    destruct ev; try exact Hst. apply push_bounded.
Qed.

(** C2: the log holds at most 50 records and keeps them newest first.
    One append puts the new record in front of the first 49 records of
    the log before, in their order; the result has at most 50 records.
    No handler makes a log of at most 50 records longer than 50.  After
    any list of messages the log is the first 50 of: their records from
    the newest to the oldest, then the records of the log before.  After
    51 messages into the empty log it holds exactly 50 records, all but
    the oldest, from the newest to the oldest. *)
Theorem message_log_bounded_newest_first :
  forall client topic message now msgs evs st,
    let st1 := final (receive topic message now st) in
    messages st1 = build topic message now :: firstn 49 (messages st)
    /\ List.length (messages st1) <= 50
    /\ (List.length (messages st) <= 50 ->
        List.length (messages (snd (deliver client evs st))) <= 50
        /\ messages (snd (deliver client (message_events msgs) st))
           = firstn 50 (rev (records msgs) ++ messages st))
    /\ (List.length msgs = 51 -> messages st = [] ->
        messages (snd (deliver client (message_events msgs) st))
        = rev (records (tl msgs))
        /\ List.length
             (messages (snd (deliver client (message_events msgs) st)))
           = 50).
Proof.
  intros client topic message now msgs evs st st1. subst st1.
  rewrite on_message_outcome. cbn [final with_messages messages].
  split; [reflexivity|]. split; [apply push_bounded|]. split.
  - intro Hst. split.
    + apply log_stays_bounded. exact Hst.
    + apply log_after_messages. exact Hst.
  - intros Hlen Hempty.
    rewrite log_after_messages by (rewrite Hempty; simpl; lia).
    rewrite Hempty, app_nil_r.
    destruct msgs as [|x msgs]; [discriminate|].
    cbn [List.length] in Hlen. cbn [tl records List.map rev].
    fold (records msgs).
    assert (Hl : List.length (rev (records msgs)) = 50).
    { rewrite length_rev. unfold records. rewrite length_map. lia. }
    rewrite firstn_app, Hl, Nat.sub_diag, firstn_O.
    rewrite app_nil_r, firstn_all2 by lia. auto.
Qed.

(** *** The ['message'] handler *)

(** C3: for every message event the handler builds one record with the
    topic, the decoded payload and the receipt time, and puts it in front
    of the log, once, whatever the extractor returns; the handler
    completes normally and changes nothing else of the state.  When the
    extractor returns a number (a non-empty string) the record carries it,
    a "Phone Number Detected" notification is shown and the call trigger
    runs on that number.  When the extractor returns "not found", or a
    match that cleans to the empty string, the record is logged without a
    number and nothing else happens. *)
Theorem on_message_logs_every_record :
  forall t payload now st,
    let record := build t payload now in
    let o := receive t payload now st in
    (topic record = t
     /\ message record = Buffer_toString payload
     /\ timestamp record = now)
    /\ final o = with_messages (record :: firstn 49 (messages st)) st
    /\ List.length (messages (final o))
       = Nat.min 50 (S (List.length (messages st)))
    /\ completion o = Normal tt
    /\ match extractPhoneNumber (Buffer_toString payload) with
       | Some (c :: n) =>
           phoneNumber record = Some (c :: n)
           /\ effects o
              = EToast (toast_detected (c :: n))
                :: effects (call (c :: n) (final o))
       | Some [] => phoneNumber record = None /\ effects o = []
       | None => phoneNumber record = None /\ effects o = []
       end.
Proof.
  intros t payload now st record o. subst record o.
  rewrite on_message_outcome. cbn [final effects completion].
  split; [repeat split|]. split; [reflexivity|]. split.
  - cbn [with_messages messages List.length]. rewrite length_firstn. lia.
  - split; [reflexivity|]. unfold build_message.
    destruct (extractPhoneNumber (Buffer_toString payload)) as [[|c n]|];
      cbn [if_truthy or_undefined phoneNumber]; split; try reflexivity.
    rewrite makePhoneCall_outcome. reflexivity.
Qed.

(** C9: the record carries a number, and the detection notification and
    the call trigger follow, exactly when the extractor returned a string
    that is not empty.  Otherwise, and so for a payload of seven spaces,
    on which the extractor returns the empty string, the record is logged
    without a number and neither notification nor call follows, as when
    the extractor returns "not found".  (A call of the trigger always
    leaves an effect, so no effect means no call.) *)
Theorem call_iff_extracted_nonempty :
  forall t payload now st,
    let record := build t payload now in
    let o := receive t payload now st in
    let found := extractPhoneNumber (Buffer_toString payload) in
    (forall n,
        (phoneNumber record = Some n
         /\ effects o = EToast (toast_detected n) :: effects (call n st))
        <-> (found = Some n /\ n <> []))
    /\ ((found = None \/ found = Some []) ->
        phoneNumber record = None
        /\ effects o = []
        /\ messages (final o) = record :: firstn 49 (messages st))
    /\ (Buffer_toString payload = js "       " -> found = Some [])
    /\ (forall n, effects (call n st) <> []).
Proof.
  intros t payload now st record o found. subst record o found.
  rewrite on_message_outcome. cbn [final effects with_messages messages].
  unfold build_message. cbn [phoneNumber].
  split; [|split; [|split]];
    [| | |intro n; rewrite makePhoneCall_outcome; apply call_effects_not_nil].
  - intro n. rewrite makePhoneCall_outcome. cbn [effects].
    destruct (extractPhoneNumber (Buffer_toString payload)) as [[|c m]|];
      cbn [if_truthy or_undefined]; split.
    + intros [H _]. discriminate.
    + intros [H Hn]. injection H as <-. congruence.
    + intros [H _]. injection H as <-. split; [reflexivity|discriminate].
    + intros [H _]. injection H as <-. split; reflexivity.
    + intros [H _]. discriminate.
    + intros [H _]. discriminate.
  - intros [H|H]; rewrite H; cbn [if_truthy or_undefined]; auto.
  - intros ->. vm_compute. reflexivity.
Qed.

(** *** The connection status *)

Lemma handle_status :
  forall client ev st,
    isConnected (final (handler client ev st))
    = match ev with
      | EvConnect _ => true
      | EvClose _ => false
      | _ => isConnected st
      end.
Proof.
  intros client [|[e|]|t payload now|e|] st; cbn [handle];
    try reflexivity.
  rewrite on_message_outcome. reflexivity.
Qed.

Lemma messages_keep_status :
  forall client mid st,
    forallb (@is_message_event Buffer) mid = true ->
    isConnected (snd (deliver client mid st)) = isConnected st.
Proof.
  intros client. induction mid as [|ev mid IH]; intros st H.
  - reflexivity.
  - cbn [forallb] in H. apply andb_true_iff in H as [Hev Hmid].
    rewrite deliver_cons, (IH _ Hmid), handle_status.
    destruct ev; try discriminate. reflexivity.
Qed.

(** C5: in every sequence of transport events where a "connected" event
    is followed, after any number of message events, by a "closed" event,
    the status at the end is Disconnected; it is Connected until the
    "closed" event, and no message handler changes it. *)
Theorem connected_then_closed_is_disconnected :
  forall client pre mid st,
    forallb (@is_message_event Buffer) mid = true ->
    isConnected
      (snd (deliver client (pre ++ EvConnect Buffer :: mid ++ [EvClose Buffer])
                    st)) = false
    /\ isConnected
         (snd (deliver client (pre ++ EvConnect Buffer :: mid) st)) = true
    /\ (forall t payload now st0,
           isConnected (final (receive t payload now st0))
           = isConnected st0).
Proof.
  intros client pre mid st Hmid. split; [|split].
  - rewrite deliver_app, deliver_cons, deliver_app, deliver_cons.
    cbn [run_events snd]. rewrite handle_status. reflexivity.
  - rewrite deliver_app, deliver_cons, (messages_keep_status _ _ _ Hmid).
    rewrite handle_status. reflexivity.
  - intros t payload now st0. rewrite on_message_outcome. reflexivity.
Qed.

(** C6: when the subscribe callback reports a failure after the
    "connected" event, a destructive "Subscription Failed" notification
    is shown and the status stays Connected: the callback leaves the
    whole state as the "connected" handler set it. *)
Theorem subscription_failure_keeps_connected :
  forall client err st,
    let connected := final (on_connect client st) in
    let o := on_subscribed client (Some err) connected in
    isConnected connected = true
    /\ effects o
       = [EToast (toast_subscription_failed
                    (cfg_topic (closure_config client)))]
    /\ final o = connected
    /\ isConnected (final o) = true
    /\ deliver client [EvConnect Buffer; EvSubscribed Buffer (Some err)] st
       = ([ESubscribe (cfg_topic (closure_config client));
           EToast (toast_subscription_failed
                     (cfg_topic (closure_config client)))],
          connected).
Proof.
  intros client err st connected o. subst connected o.
  repeat split.
Qed.

End Session.

(** *** Disconnect *)

Lemma disconnect_live :
  forall st c,
    clientRef st = Some c ->
    disconnect st
    = mkOutcome [EClientEnd; EToast toast_disconnected]
                (mkState false (messages st) (config st) (showSettings st)
                         None)
                (Normal tt).
Proof.
  intros st c H. unfold disconnect, bind at 1.
  cbn [get completion final effects]. rewrite H. reflexivity.
Qed.

Lemma disconnect_idle :
  forall st,
    clientRef st = None -> disconnect st = mkOutcome [] st (Normal tt).
Proof.
  intros st H. unfold disconnect, bind at 1.
  cbn [get completion final effects]. rewrite H. reflexivity.
Qed.

(** C7: a disconnect with a live handle ends the transport, clears the
    handle, sets the status to Disconnected and shows one "Disconnected"
    notification.  After any disconnect the handle is cleared, and a
    second disconnect then does nothing: no transport operation, no
    notification, the state as it was. *)
Theorem disconnect_twice_is_noop :
  forall st,
    let o1 := disconnect st in
    let o2 := disconnect (final o1) in
    clientRef (final o1) = None
    /\ match clientRef st with
       | Some _ =>
           effects o1 = [EClientEnd; EToast toast_disconnected]
           /\ isConnected (final o1) = false
       | None => effects o1 = [] /\ final o1 = st
       end
    /\ effects o2 = []
    /\ final o2 = final o1
    /\ completion o2 = Normal tt.
Proof.
  intros st o1 o2. subst o1 o2.
  destruct (clientRef st) as [c|] eqn:Href.
  - rewrite (disconnect_live st c Href). cbn [final effects].
    rewrite disconnect_idle by reflexivity. repeat split.
  - rewrite (disconnect_idle st Href). cbn [final effects].
    rewrite (disconnect_idle st Href). repeat split. exact Href.
Qed.

(** ** The theorems at concrete inputs *)

Lemma extractPhoneNumber_plus_then_digits_example :
  extractPhoneNumber (js "+1 800 555 0199") = Some (js "+18005550199")
  /\ exists digits,
      (js "+18005550199" = digits \/ js "+18005550199" = code "+" :: digits)
      /\ Forall (fun c => is_digit c = true) digits
      /\ Forall (fun c => c <> code "+") digits.
Proof.
  split; [vm_compute; reflexivity|].
  apply (extractPhoneNumber_plus_then_digits (js "+1 800 555 0199")).
  vm_compute. reflexivity.
Defined.

Lemma message_log_fifty_one_example :
  List.length example_msgs = 51
  /\ messages initial_state = []
  /\ messages
       (snd (run_events example_hostname example_window_open
                        example_toString example_client
                        (message_events example_msgs) initial_state))
     = rev (records example_toString (tl example_msgs))
  /\ List.length
       (messages
          (snd (run_events example_hostname example_window_open
                           example_toString example_client
                           (message_events example_msgs) initial_state)))
     = 50.
Proof.
  split; [reflexivity|]. split; [reflexivity|].
  apply (message_log_bounded_newest_first
           example_hostname example_window_open jsstring example_toString
           example_client (js "dialer/phone") (js "ping") 0%Z
           example_msgs [] initial_state); reflexivity.
Defined.

Lemma connected_then_closed_example :
  isConnected
    (snd (run_events example_hostname example_window_open example_toString
                     example_client
                     ([] ++ EvConnect jsstring
                         :: [EvMessage (js "dialer/phone")
                                       (js "+1 800 555 0199") 0%Z]
                         ++ [EvClose jsstring])
                     initial_state)) = false.
Proof.
  apply (connected_then_closed_is_disconnected
           example_hostname example_window_open jsstring example_toString
           example_client []
           [EvMessage (js "dialer/phone") (js "+1 800 555 0199") 0%Z]
           initial_state).
  reflexivity.
Defined.

Lemma seven_spaces_example :
  let record :=
    build_message example_toString (js "dialer/phone") (js "       ") 0%Z in
  let o :=
    on_message example_hostname example_window_open example_toString
               (js "dialer/phone") (js "       ") 0%Z initial_state in
  extractPhoneNumber (js "       ") = Some []
  /\ phoneNumber record = None
  /\ effects o = []
  /\ messages (final o) = record :: firstn 49 (messages initial_state).
Proof.
  intros record o.
  destruct (call_iff_extracted_nonempty
              example_hostname example_window_open jsstring
              example_toString (js "dialer/phone") (js "       ") 0%Z
              initial_state) as (_ & Hnot & Hseven & _).
  split; [exact (Hseven eq_refl)|].
  apply Hnot. right. exact (Hseven eq_refl).
Defined.

(** * Further properties *)

(** ** The extractor at its bounds *)

Lemma extract_of_match_at_start :
  forall s mt,
    phone_at s = Some mt ->
    extractPhoneNumber s = Some (strip_separators mt).
Proof.
  intros s mt H. unfold extractPhoneNumber, String_match.
  rewrite <- match_at_phoneRegex in H.
  destruct s as [|c s]; cbn [match_all_from]; rewrite H;
    unfold cleanRegex; rewrite replace_charset_empty; reflexivity.
Qed.

Lemma digit_is_no_separator :
  forall c, is_digit c = true -> separator_class c = false.
Proof.
  intros c Hc. unfold is_digit, in_range in Hc.
  apply andb_true_iff in Hc as [Hlo Hhi].
  apply N.leb_le in Hlo. apply N.leb_le in Hhi.
  assert (H : (c = 48 \/ c = 49 \/ c = 50 \/ c = 51 \/ c = 52 \/ c = 53
               \/ c = 54 \/ c = 55 \/ c = 56 \/ c = 57)%N) by lia.
  repeat (destruct H as [-> | H]; [reflexivity|]). subst c. reflexivity.
Qed.

Lemma strip_digits :
  forall ds,
    Forall (fun c => is_digit c = true) ds -> strip_separators ds = ds.
Proof.
  induction ds as [|c ds IH]; intro H; [reflexivity|].
  inversion H as [|? ? Hc Hds]; subst.
  unfold strip_separators in *. cbn [filter].
  rewrite (digit_is_no_separator c Hc). cbn [negb]. f_equal.
  apply IH. exact Hds.
Qed.

Lemma digits_in_class :
  forall ds,
    Forall (fun c => is_digit c = true) ds ->
    Forall (fun c => phone_class c = true) ds.
Proof.
  intros ds H. eapply Forall_impl; [|exact H].
  intros c Hc. rewrite phone_class_split, Hc. reflexivity.
Qed.

Lemma run_all_in_class :
  forall p n s,
    Forall (fun c => p c = true) s -> run p n s = Nat.min n (List.length s).
Proof.
  intros p. induction n as [|n IH]; intros s H; [reflexivity|].
  destruct s as [|c s]; [reflexivity|].
  inversion H as [|? ? Hc Hs]; subst.
  cbn [run List.length]. rewrite Hc, (IH s Hs). lia.
Qed.

(** A candidate holds at least 7 characters of the class. *)
Lemma candidate_needs_seven :
  forall pre mt post,
    candidate mt ->
    7 <= List.length (filter phone_class (pre ++ mt ++ post)).
Proof.
  intros pre mt post (body & Hshape & Hcls & Hlen).
  rewrite !filter_app, !length_app.
  assert (Hb : List.length (filter phone_class body) = List.length body).
  { clear Hlen Hshape. induction body as [|c b IH]; [reflexivity|].
    inversion Hcls as [|? ? Hc Hb]; subst. cbn [filter]. rewrite Hc.
    cbn [List.length]. f_equal. apply IH. exact Hb. }
  destruct Hshape as [-> | ->].
  - lia.
  - cbn [filter]. change (phone_class (code "+")) with false. lia.
Qed.

Lemma too_few_class_characters :
  forall s,
    List.length (filter phone_class s) < 7 -> extractPhoneNumber s = None.
Proof.
  intros s Hlen. pose proof (extractPhoneNumber_cases s) as H.
  destruct (extractPhoneNumber s) as [r|]; [|reflexivity].
  destruct H as (pre & mt & post & (Hs & Hcand & _) & _).
  pose proof (candidate_needs_seven pre mt post Hcand) as H7.
  rewrite <- Hs in H7. lia.
Qed.

Lemma Forall_prefix :
  forall (A : Type) (P : A -> Prop) n (l : list A),
    Forall P l -> Forall P (firstn n l).
Proof.
  intros A P. induction n as [|n IH]; intros l H; [constructor|].
  destruct H as [|x l Hx Hl]; cbn [firstn]; constructor; auto.
Qed.

Lemma filter_length_le :
  forall (A : Type) (f : A -> bool) (l : list A),
    List.length (filter f l) <= List.length l.
Proof.
  intros A f. induction l as [|x l IH]; [reflexivity|].
  cbn [filter]. destruct (f x); cbn [List.length]; lia.
Qed.

(** X1: a payload that holds fewer than 7 characters of the class
    (digits, white space, hyphens, parentheses) in all, the empty payload
    among them, yields "not found". *)
Theorem extractPhoneNumber_needs_seven :
  forall s,
    List.length (filter phone_class s) < 7 ->
    extractPhoneNumber s = None.
Proof. exact too_few_class_characters. Qed.

Lemma extractPhoneNumber_needs_seven_example :
  extractPhoneNumber (js "dial 555 now") = None.
Proof.
  apply extractPhoneNumber_needs_seven. vm_compute. lia.
Defined.

Lemma digits_only :
  forall s,
    Forall (fun c => is_digit c = true) s ->
    extractPhoneNumber s
    = if 7 <=? List.length s then Some (firstn 15 s) else None.
Proof.
  intros s Hd. destruct (7 <=? List.length s) eqn:Hlen.
  - apply Nat.leb_le in Hlen.
    assert (Hat : phone_at s = Some (firstn 15 s)).
    { destruct s as [|c s']; [simpl in Hlen; lia|].
      assert (Hplus : is_plus c = false).
      { inversion Hd as [|? ? Hc _]; subst.
        destruct (is_plus c) eqn:E; [|reflexivity].
        apply is_plus_code in E. subst c. discriminate. }
      cbn [phone_at]. rewrite Hplus. unfold body_at.
      rewrite (run_all_in_class phone_class 15 _ (digits_in_class _ Hd)).
      replace (7 <=? Nat.min 15 (List.length (c :: s'))) with true
        by (symmetry; apply Nat.leb_le; lia).
      f_equal. rewrite <- firstn_firstn, firstn_all. reflexivity. }
    rewrite (extract_of_match_at_start _ _ Hat). f_equal.
    apply strip_digits. apply Forall_prefix. exact Hd.
  - apply Nat.leb_gt in Hlen. apply too_few_class_characters.
    pose proof (filter_length_le _ phone_class s). lia.
Qed.

(** X2: a payload of decimal digits only is not rejected for its length:
    from 7 digits on the extractor returns its first 15 digits, and with
    fewer than 7 digits "not found". *)
Theorem extractPhoneNumber_truncates_digits :
  forall s,
    Forall (fun c => is_digit c = true) s ->
    extractPhoneNumber s
    = if 7 <=? List.length s then Some (firstn 15 s) else None.
Proof. exact digits_only. Qed.


Lemma extractPhoneNumber_truncates_digits_example :
  extractPhoneNumber (js "12345678901234567890")
  = Some (js "123456789012345").
Proof.
  apply (extractPhoneNumber_truncates_digits (js "12345678901234567890")).
  repeat constructor.
Defined.

Lemma filter_all :
  forall (A : Type) (f : A -> bool) (l : list A),
    Forall (fun x => f x = true) l -> filter f l = l.
Proof.
  intros A f. induction l as [|x l IH]; intro H; [reflexivity|].
  inversion H as [|? ? Hx Hl]; subst. cbn [filter]. rewrite Hx.
  f_equal. apply IH. exact Hl.
Qed.

(** The shape of a returned number, with the bound on its digits. *)
Lemma extracted_shape :
  forall s r,
    extractPhoneNumber s = Some r ->
    exists digits,
      (r = digits \/ r = code "+" :: digits)
      /\ Forall (fun c => is_digit c = true) digits
      /\ List.length digits <= 15.
Proof.
  intros s r H. pose proof (extractPhoneNumber_cases s) as Hc.
  rewrite H in Hc.
  destruct Hc as (pre & mt & post & (_ & Hcand & _) & ->).
  destruct Hcand as (body & Hshape & Hcls & Hlen).
  exists (strip_separators body). split; [|split].
  - destruct Hshape as [-> | ->]; [left|right]; reflexivity.
  - apply strip_class_digits. exact Hcls.
  - pose proof (filter_length_le _ (fun c => negb (separator_class c)) body).
    unfold strip_separators. lia.
Qed.

(** X3: a returned number holds at most 15 digits, behind at most one
    ['+'].  Run on a number it returned, the extractor returns that number
    unchanged when it holds at least 7 digits, and "not found" when it
    holds fewer: a match with few digits among its separators is returned
    although it would not be recognised as a number itself. *)
Theorem extractPhoneNumber_on_its_result :
  forall s r,
    extractPhoneNumber s = Some r ->
    List.length (filter is_digit r) <= 15
    /\ List.length r <= 16
    /\ extractPhoneNumber r
       = if 7 <=? List.length (filter is_digit r) then Some r else None.
Proof.
  intros s r H.
  destruct (extracted_shape s r H) as (ds & Hshape & Hd & Hlen).
  assert (Hf : filter is_digit r = ds).
  { destruct Hshape as [-> | ->]; [apply filter_all; exact Hd|].
    cbn [filter]. change (is_digit (code "+")) with false.
    apply filter_all. exact Hd. }
  rewrite Hf. split; [exact Hlen|]. split.
  - destruct Hshape as [-> | ->]; cbn [List.length]; lia.
  - destruct Hshape as [-> | ->].
    + rewrite (digits_only ds Hd).
      destruct (7 <=? List.length ds); [|reflexivity].
      rewrite firstn_all2 by exact Hlen. reflexivity.
    + destruct (7 <=? List.length ds) eqn:H7.
      * apply Nat.leb_le in H7.
        assert (Hat : phone_at (code "+" :: ds) = Some (code "+" :: ds)).
        { cbn [phone_at]. change (is_plus (code "+")) with true.
          cbn match. unfold body_at at 1.
          rewrite (run_all_in_class phone_class 15 ds
                     (digits_in_class ds Hd)).
          replace (Nat.min 15 (List.length ds)) with (List.length ds)
            by lia.
          replace (7 <=? List.length ds) with true
            by (symmetry; apply Nat.leb_le; exact H7).
          rewrite firstn_all. reflexivity. }
        rewrite (extract_of_match_at_start _ _ Hat).
        unfold strip_separators. cbn [filter].
        change (separator_class (code "+")) with false. cbn [negb].
        f_equal. f_equal. apply (strip_digits ds Hd).
      * apply Nat.leb_gt in H7. apply too_few_class_characters.
        cbn [filter]. change (phone_class (code "+")) with false.
        pose proof (filter_length_le _ phone_class ds). lia.
Qed.

Lemma extractPhoneNumber_on_its_result_example :
  extractPhoneNumber (js "(1) - (2) - (3)") = Some (js "123")
  /\ extractPhoneNumber (js "123") = None.
Proof.
  split; [vm_compute; reflexivity|].
  apply (extractPhoneNumber_on_its_result (js "(1) - (2) - (3)") (js "123")).
  vm_compute. reflexivity.
Defined.

(** ** Only the first match counts *)

Lemma extract_is_first_hit :
  forall s,
    extractPhoneNumber s
    = match first_hit s with
      | Some mt => Some (strip_separators mt)
      | None => None
      end.
Proof.
  intro s. unfold extractPhoneNumber, String_match.
  assert (H : forall u,
             match match_all_from phoneRegex 0 u with
             | m0 :: _ => first_hit u = Some m0
             | [] => first_hit u = None
             end).
  { induction u as [|c u IH]; cbn [match_all_from first_hit];
      rewrite match_at_phoneRegex.
    - destruct (phone_at []); reflexivity.
    - destruct (phone_at (c :: u)); [reflexivity|].
      destruct (match_all_from phoneRegex 0 u); exact IH. }
  specialize (H s).
  destruct (match_all_from phoneRegex 0 s) as [|m0 ms]; rewrite H;
    [reflexivity|].
  unfold cleanRegex. rewrite replace_charset_empty. reflexivity.
Qed.

Lemma run_stops :
  forall p n v c t,
    p c = false ->
    run p n (v ++ c :: t) = run p n (v ++ [c])
    /\ run p n (v ++ [c]) <= List.length v.
Proof.
  intros p. induction n as [|n IH]; intros v c t Hc.
  - destruct v; cbn; split; auto; lia.
  - destruct v as [|x v]; cbn [app run List.length].
    + rewrite Hc. split; auto.
    + destruct (p x); [|split; [reflexivity | lia]].
      destruct (IH v c t Hc) as [Heq Hle]. rewrite Heq. split; [auto | lia].
Qed.

Lemma firstn_into_prefix :
  forall (A : Type) k (v a b : list A),
    k <= List.length v -> firstn k (v ++ a) = firstn k (v ++ b).
Proof.
  intros A k v a b Hk. rewrite !firstn_app.
  replace (k - List.length v) with 0 by lia. reflexivity.
Qed.

Lemma body_at_stops :
  forall v c t,
    phone_class c = false -> body_at (v ++ c :: t) = body_at (v ++ [c]).
Proof.
  intros v c t Hc. unfold body_at.
  destruct (run_stops phone_class 15 v c t Hc) as [Heq Hle].
  rewrite Heq. destruct (7 <=? run phone_class 15 (v ++ [c])); [|reflexivity].
  f_equal. apply firstn_into_prefix. exact Hle.
Qed.

Lemma phone_at_stops :
  forall x v c t,
    phone_class c = false ->
    phone_at ((x :: v) ++ c :: t) = phone_at ((x :: v) ++ [c]).
Proof.
  intros x v c t Hc. cbn [app phone_at].
  rewrite (body_at_stops v c t Hc).
  change (x :: v ++ c :: t) with ((x :: v) ++ c :: t).
  change (x :: v ++ [c]) with ((x :: v) ++ [c]).
  rewrite (body_at_stops (x :: v) c t Hc). reflexivity.
Qed.

Lemma first_hit_stops :
  forall s c t mt,
    phone_class c = false ->
    first_hit (s ++ [c]) = Some mt ->
    first_hit (s ++ c :: t) = Some mt.
Proof.
  induction s as [|x s IH]; intros c t mt Hc H.
  - cbn [app first_hit phone_at] in H.
    assert (Hb : body_at [c] = None).
    { unfold body_at. cbn [run]. rewrite Hc. reflexivity. }
    assert (Hn : body_at [] = None) by reflexivity.
    rewrite Hb, Hn in H. destruct (is_plus c); discriminate.
  - pose proof (phone_at_stops x s c t Hc) as Hp.
    cbn [app first_hit] in *. rewrite Hp.
    destruct (phone_at (x :: s ++ [c])); [exact H|].
    apply IH; assumption.
Qed.

Lemma first_hit_skips :
  forall pre s,
    Forall (fun c => phone_class c = false /\ is_plus c = false) pre ->
    first_hit (pre ++ s) = first_hit s.
Proof.
  induction pre as [|x pre IH]; intros s H; [reflexivity|].
  inversion H as [|? ? [Hcls Hplus] Hpre]; subst.
  cbn [app first_hit phone_at]. rewrite Hplus.
  unfold body_at. cbn [run]. rewrite Hcls. cbn.
  apply IH. exact Hpre.
Qed.

(** X4: only the first match of a payload counts.  Once a payload that
    ends in a character outside the class yields a number, whatever text
    follows, further numbers included, yields the same number; and text
    in front that holds no ['+'] and no character of the class changes
    nothing. *)
Theorem extractPhoneNumber_first_match_only :
  forall pre s c rest r,
    phone_class c = false ->
    Forall (fun x => phone_class x = false /\ is_plus x = false) pre ->
    extractPhoneNumber (s ++ [c]) = Some r ->
    extractPhoneNumber (s ++ c :: rest) = Some r
    /\ extractPhoneNumber (pre ++ s ++ c :: rest) = Some r.
Proof.
  intros pre s c rest r Hc Hpre H.
  rewrite extract_is_first_hit in H.
  destruct (first_hit (s ++ [c])) as [mt|] eqn:Hhit; [|discriminate].
  rewrite !extract_is_first_hit, (first_hit_skips pre _ Hpre).
  rewrite (first_hit_stops s c rest mt Hc Hhit). auto.
Qed.

Lemma extractPhoneNumber_first_match_only_example :
  extractPhoneNumber (js "call 555-123-4567, or 555-987-6543")
  = Some (js "5551234567").
Proof.
  apply (extractPhoneNumber_first_match_only
           (js "call") (js " 555-123-4567") (code ",")
           (js " or 555-987-6543") (js "5551234567")).
  - reflexivity.
  - repeat constructor.
  - vm_compute. reflexivity.
Defined.

(** ** Connecting *)

Section Connecting.

Variable mqtt_connect_completion : Url -> IClientOptions -> Completion unit.

Local Abbreviation connect := (connectToMqtt mqtt_connect_completion).

(** [connectToMqtt] in one step. *)
Lemma connectToMqtt_outcome :
  forall random_hex st,
    let url := target_url (config st) in
    let options := target_options (config st) random_hex in
    connect random_hex st
    = match mqtt_connect_completion url options with
      | Normal _ =>
          mkOutcome [EMqttConnect url options]
                    (with_clientRef (Some (mkClient url options (config st)))
                                    st)
                    (Normal tt)
      | Throw _ =>
          mkOutcome [EMqttConnect url options; EToast toast_connection_failed]
                    st (Normal tt)
      end.
Proof.
  intros random_hex st url options. subst url options.
  unfold connectToMqtt, try_catch, bind, get, mqtt_connect, set_clientRef,
    modify, toast, emit, target_url, target_options, with_clientRef,
    toast_connection_failed.
  cbn [completion final effects app keepalive clientId protocolId
       protocolVersion clean reconnectPeriod connectTimeout].
  change (30 * 1000)%Z with 30000%Z.
  destruct (username (config st)) as [[|c u]|]; cbn [if_truthy];
    match goal with
    | |- context [mqtt_connect_completion ?u ?o] =>
        destruct (mqtt_connect_completion u o) as [[]|e]
    end;
    cbn [completion final effects app]; reflexivity.
Qed.

(** X5: [connectToMqtt] never throws and calls [mqtt.connect] once.  When
    that call throws, the one notification is "Connection Failed" and the
    state, a handle held before included, is as it was.  When it returns,
    nothing is notified and the new client takes the place of the handle,
    a client held before is not ended, and neither the status (only the
    ['connect'] event sets it) nor the log, the configuration or the
    settings flag change. *)
Theorem connectToMqtt_contains_failure :
  forall random_hex st,
    let url := target_url (config st) in
    let options := target_options (config st) random_hex in
    let o := connect random_hex st in
    completion o = Normal tt
    /\ count_connects (effects o) = 1
    /\ count_ends (effects o) = 0
    /\ (isConnected (final o) = isConnected st
        /\ messages (final o) = messages st
        /\ config (final o) = config st
        /\ showSettings (final o) = showSettings st)
    /\ match mqtt_connect_completion url options with
       | Throw _ =>
           toasts (effects o) = [toast_connection_failed] /\ final o = st
       | Normal _ =>
           toasts (effects o) = []
           /\ clientRef (final o) = Some (mkClient url options (config st))
       end.
Proof.
  intros random_hex st url options o. subst url options o.
  rewrite connectToMqtt_outcome.
  destruct (mqtt_connect_completion (target_url (config st))
              (target_options (config st) random_hex)) as [[]|e];
    cbn [completion final effects]; repeat split.
Qed.

(** X6: the client [connectToMqtt] stores when [mqtt.connect] returns.
    Its target takes the secure scheme for the port 8884 and for no other
    port; the user name and the password are passed exactly when the
    configured user name is not empty, so that a password set without a
    user name is dropped; the client identifier is ["mqtt_dialer_"] and
    the random text from its fourth character on; the handlers keep the
    configuration of the moment of the call. *)
Theorem connectToMqtt_target_and_credentials :
  forall random_hex st,
    (forall url options, mqtt_connect_completion url options = Normal tt) ->
    exists client,
      clientRef (final (connect random_hex st)) = Some client
      /\ (protocol (client_url client) = js "wss"
          <-> port (config st) = 8884%Z)
      /\ (protocol (client_url client) = js "ws"
          <-> port (config st) <> 8884%Z)
      /\ url_host (client_url client) = broker (config st)
      /\ url_port (client_url client) = port (config st)
      /\ (forall u,
             opt_username (client_options client) = Some u
             <-> (username (config st) = Some u /\ u <> []))
      /\ opt_password (client_options client)
         = match username (config st) with
           | Some (_ :: _) => password (config st)
           | _ => None
           end
      /\ clientId (client_options client)
         = js "mqtt_dialer_" ++ skipn 3 random_hex
      /\ (keepalive (client_options client) = 60%Z
          /\ clean (client_options client) = true
          /\ reconnectPeriod (client_options client) = 1000%Z
          /\ connectTimeout (client_options client) = 30000%Z)
      /\ closure_config client = config st.
Proof.
  intros random_hex st Hok.
  exists (mkClient (target_url (config st))
                   (target_options (config st) random_hex) (config st)).
  rewrite connectToMqtt_outcome, Hok.
  cbn [final with_clientRef clientRef client_url client_options
       closure_config target_url target_options protocol url_host url_port
       opt_username opt_password clientId keepalive clean reconnectPeriod
       connectTimeout].
  split; [reflexivity|].
  assert (Hscheme :
    (if (port (config st) =? 8884)%Z then js "wss" else js "ws") = js "wss"
    <-> port (config st) = 8884%Z).
  { destruct (Z.eqb_spec (port (config st)) 8884) as [He|Hne];
      split; auto; try discriminate. intro; contradiction. }
  assert (Hplain :
    (if (port (config st) =? 8884)%Z then js "wss" else js "ws") = js "ws"
    <-> port (config st) <> 8884%Z).
  { destruct (Z.eqb_spec (port (config st)) 8884) as [He|Hne];
      split; auto; try discriminate. intro; contradiction. }
  split; [exact Hscheme|]. split; [exact Hplain|].
  split; [reflexivity|]. split; [reflexivity|]. split.
  - intro u. destruct (username (config st)) as [[|c n]|];
      cbn [if_truthy]; split.
    + discriminate.
    + intros [Hu Hn]. injection Hu as <-. congruence.
    + intro Hu. split; [exact Hu|]. injection Hu as <-. discriminate.
    + intros [Hu _]. exact Hu.
    + discriminate.
    + intros [Hu _]. discriminate.
  - split.
    + destruct (username (config st)) as [[|c n]|]; reflexivity.
    + repeat split.
Qed.

End Connecting.

Lemma connectToMqtt_target_and_credentials_example :
  exists client,
    clientRef (final (connectToMqtt (fun _ _ => Normal tt) (js "0.8a3f9c")
                                    initial_state))
    = Some client
    /\ protocol (client_url client) = js "ws"
    /\ opt_username (client_options client) = None
    /\ clientId (client_options client) = js "mqtt_dialer_a3f9c".
Proof.
  destruct (connectToMqtt_target_and_credentials
              (fun _ _ => Normal tt) (js "0.8a3f9c") initial_state
              (fun _ _ => eq_refl))
    as (client & Href & _ & Hws & _ & _ & Huser & _ & Hid & _).
  exists client. split; [exact Href|]. split.
  - apply Hws. discriminate.
  - split; [|exact Hid].
    destruct (opt_username (client_options client)) as [u|] eqn:Hu;
      [|reflexivity].
    destruct (proj1 (Huser u) eq_refl) as [Hcfg Hne].
    injection Hcfg as <-. contradiction.
Defined.

(** ** Handlers, one by one *)

Section Handlers.

Variable hostname : jsstring.
Variable window_open_completion : jsstring -> jsstring -> Completion unit.
Variable Buffer : Type.
Variable Buffer_toString : Buffer -> jsstring.

Local Abbreviation dev := (is_dev_host hostname).
Local Abbreviation build := (build_message Buffer_toString).
Local Abbreviation receive :=
  (on_message hostname window_open_completion Buffer_toString).
Local Abbreviation deliver :=
  (run_events hostname window_open_completion Buffer_toString).
Local Abbreviation handler :=
  (handle hostname window_open_completion Buffer_toString).

(** The state a handler leaves. *)
Lemma handle_final :
  forall client ev st,
    final (handler client ev st)
    = match ev with
      | EvConnect _ =>
          mkState true (messages st) (config st) false (clientRef st)
      | EvClose _ =>
          mkState false (messages st) (config st) (showSettings st)
                  (clientRef st)
      | EvMessage t payload now =>
          with_messages (build t payload now :: firstn 49 (messages st)) st
      | _ => st
      end.
Proof.
  intros client [|[e|]|t payload now|e|] st; cbn [handle];
    try reflexivity.
  rewrite on_message_outcome. reflexivity.
Qed.

Lemma handle_effects :
  forall client ev st,
    effects (handler client ev st)
    = match ev with
      | EvConnect _ => [ESubscribe (cfg_topic (closure_config client))]
      | EvClose _ => []
      | EvMessage t payload now =>
          if_truthy (extractPhoneNumber (Buffer_toString payload))
            (fun n => EToast (toast_detected n)
                      :: call_effects hostname window_open_completion n)
            []
      | EvSubscribed _ (Some _) =>
          [EToast (toast_subscription_failed
                     (cfg_topic (closure_config client)))]
      | EvSubscribed _ None =>
          [EToast {| title := js "Connected & Subscribed";
                     description :=
                       js "Listening to "
                       ++ cfg_topic (closure_config client);
                     destructive := false;
                     duration := None |}]
      | EvError _ e => [EToast (toast_connection_error e)]
      end.
Proof.
  intros client [|[e|]|t payload now|e|] st; cbn [handle];
    try reflexivity.
  rewrite on_message_outcome. reflexivity.
Qed.

(** X7: the cleanup run at unmount ends the client when a handle is
    held, and does nothing else: no notification, the state untouched.
    After [disconnect] it finds no handle and does nothing, so that
    [disconnect] followed by the cleanup ends the client once. *)
Theorem unmount_ends_the_client_once :
  forall st,
    let o := unmount st in
    let o1 := disconnect st in
    let o2 := unmount (final o1) in
    final o = st
    /\ toasts (effects o) = []
    /\ count_ends (effects o)
       = match clientRef st with Some _ => 1 | None => 0 end
    /\ effects o2 = []
    /\ final o2 = final o1
    /\ count_ends (effects o1 ++ effects o2)
       = match clientRef st with Some _ => 1 | None => 0 end.
Proof.
  intros st o o1 o2. subst o o1 o2.
  assert (Hun : forall s,
             unmount s
             = mkOutcome match clientRef s with
                         | Some _ => [EClientEnd]
                         | None => []
                         end s (Normal tt)).
  { intro s. unfold unmount, bind, get. cbn [completion final effects].
    destruct (clientRef s); reflexivity. }
  destruct (clientRef st) as [c|] eqn:Href.
  - rewrite (disconnect_live st c Href), !Hun, Href.
    cbn [final effects clientRef]. repeat split.
  - rewrite (disconnect_idle st Href), !Hun.
    cbn [final effects]. rewrite !Href. repeat split.
Qed.

(** X8: the ['message'] handler consults neither the handle nor the
    status: what it does to the outside is the same in every state.  A
    message that arrives after [disconnect] is logged as before, and on a
    production host its number is dialled. *)
Theorem message_after_disconnect_is_handled :
  forall t payload now st st0,
    let after := final (disconnect st) in
    effects (receive t payload now st) = effects (receive t payload now st0)
    /\ messages (final (receive t payload now after))
       = build t payload now :: firstn 49 (messages st)
    /\ window_open_calls (effects (receive t payload now after))
       = if dev then []
         else if_truthy (extractPhoneNumber (Buffer_toString payload))
                (fun n => [(js "tel:" ++ n, js "_system")]) [].
Proof.
  intros t payload now st st0 after. subst after.
  rewrite !on_message_outcome. cbn [effects final with_messages messages].
  split; [reflexivity|]. split.
  - destruct (clientRef st) as [c|] eqn:Href.
    + rewrite (disconnect_live st c Href). reflexivity.
    + rewrite (disconnect_idle st Href). reflexivity.
  - destruct (extractPhoneNumber (Buffer_toString payload)) as [[|c m]|];
      cbn [if_truthy]; try (destruct dev; reflexivity).
    unfold call_effects. destruct dev; [reflexivity|].
    destruct (window_open_completion (js "tel:" ++ c :: m) (js "_system"));
      reflexivity.
Qed.

Lemma deliver_step :
  forall client ev evs st,
    snd (deliver client (ev :: evs) st)
    = snd (deliver client evs (final (handler client ev st))).
Proof.
  intros client ev evs st. cbn [run_events].
  destruct (deliver client evs (final (handler client ev st))).
  reflexivity.
Qed.

(** X9: a transport error and the result of the subscription change no
    part of the state; each shows one notification.  An error therefore
    never marks the session Disconnected, and leaving these events out of
    any sequence of events leaves the final state the same. *)
Theorem notices_leave_the_state :
  forall client evs st,
    (forall ev,
        is_notice ev = true ->
        final (handler client ev st) = st
        /\ List.length (toasts (effects (handler client ev st))) = 1
        /\ List.length (effects (handler client ev st)) = 1)
    /\ snd (deliver client evs st)
       = snd (deliver client (filter (fun ev => negb (is_notice ev)) evs)
                      st).
Proof.
  intros client evs st. split.
  - intros ev Hev. rewrite handle_final, handle_effects.
    destruct ev as [|[e|]|t payload now|e|]; try discriminate;
      repeat split.
  - revert st. induction evs as [|ev evs IH]; intro st; [reflexivity|].
    cbn [filter]. destruct (is_notice ev) eqn:Hev; cbn [negb].
    + rewrite deliver_step, handle_final.
      destruct ev as [|[e|]|t payload now|e|]; try discriminate;
        apply IH.
    + rewrite !deliver_step. apply IH.
Qed.

(** *** The development host *)

Lemma str_eqb_eq : forall a b, str_eqb a b = true <-> a = b.
Proof.
  induction a as [|x a IH]; intros [|y b]; cbn [str_eqb]; split;
    try discriminate; auto.
  - intro H. apply andb_true_iff in H as [Hx Hab].
    apply N.eqb_eq in Hx. apply IH in Hab. congruence.
  - intro H. injection H as -> ->. apply andb_true_iff. split.
    + apply N.eqb_refl.
    + apply IH. reflexivity.
Qed.

Lemma starts_with_prefix :
  forall sub s, starts_with sub s = true <-> exists post, s = sub ++ post.
Proof.
  induction sub as [|x sub IH]; intros s; cbn [starts_with].
  - split; [intros _; exists s; reflexivity | reflexivity].
  - destruct s as [|y s].
    + split; [discriminate | intros (post & H); discriminate].
    + split.
      * intro H. apply andb_true_iff in H as [Hx Hs].
        apply N.eqb_eq in Hx. apply IH in Hs as (post & ->).
        exists post. subst. reflexivity.
      * intros (post & H). injection H as -> ->.
        apply andb_true_iff. split; [apply N.eqb_refl|].
        apply IH. exists post. reflexivity.
Qed.

(** [includes] finds exactly the substrings. *)
Lemma includes_substring :
  forall s sub,
    includes s sub = true <-> exists pre post, s = pre ++ sub ++ post.
Proof.
  induction s as [|c s IH]; intro sub; cbn [includes].
  - rewrite orb_false_r, starts_with_prefix. split.
    + intros (post & H). exists [], post. exact H.
    + intros (pre & post & H). symmetry in H.
      apply app_eq_nil in H as [-> H]. apply app_eq_nil in H as [-> ->].
      exists []. reflexivity.
  - rewrite orb_true_iff, starts_with_prefix, IH. split.
    + intros [(post & H) | (pre & post & H)].
      * exists [], post. exact H.
      * exists (c :: pre), post. rewrite H. reflexivity.
    + intros ([|c' pre] & post & H).
      * left. exists post. exact H.
      * right. injection H as _ H. exists pre, post. exact H.
Qed.

Lemma window_open_calls_app :
  forall a b,
    window_open_calls (a ++ b) = window_open_calls a ++ window_open_calls b.
Proof.
  induction a as [|e a IH]; intro b; [reflexivity|].
  destruct e; cbn [app window_open_calls]; rewrite IH; reflexivity.
Qed.

(** X10: the trigger takes the page for a development page exactly when
    its host name is [localhost] or holds [lovableproject.com] somewhere,
    and on such a host no sequence of transport events opens a [tel:]
    address, whatever numbers the payloads hold. *)
Theorem development_host_never_dials :
  forall client evs st,
    (dev = true
     <-> (hostname = js "localhost"
          \/ exists pre post,
               hostname = pre ++ js "lovableproject.com" ++ post))
    /\ (dev = true ->
        window_open_calls (fst (deliver client evs st)) = []).
Proof.
  intros client evs st. split.
  - unfold is_dev_host.
    rewrite orb_true_iff, str_eqb_eq, includes_substring. reflexivity.
  - intro Hdev. revert st.
    induction evs as [|ev evs IH]; intro st; [reflexivity|].
    cbn [run_events].
    specialize (IH (final (handler client ev st))).
    destruct (deliver client evs (final (handler client ev st)))
      as [effs st'].
    cbn [fst] in *. rewrite window_open_calls_app, IH, app_nil_r.
    rewrite handle_effects.
    destruct ev as [|[e|]|t payload now|e|]; try reflexivity.
    destruct (extractPhoneNumber (Buffer_toString payload)) as [[|c n]|];
      cbn [if_truthy]; try reflexivity.
    unfold call_effects. rewrite Hdev. reflexivity.
Qed.

End Handlers.

(** The host the packaged application is served from. *)
Lemma development_host_never_dials_packaged :
  url_hostname (server_url capacitor_config)
  = js "2e4dac08-ba78-4b9d-91e1-0d063f2efc91.lovableproject.com"
  /\ window_open_calls
       (fst (run_events (url_hostname (server_url capacitor_config))
                        example_window_open example_toString example_client
                        [EvConnect jsstring;
                         EvMessage (js "dialer/phone")
                                   (js "call +1 800 555 0199") 0%Z]
                        initial_state))
     = [].
Proof.
  split; [vm_compute; reflexivity|].
  apply (development_host_never_dials
           (url_hostname (server_url capacitor_config))
           example_window_open jsstring example_toString).
  vm_compute. reflexivity.
Defined.

(** ** The page as a whole *)

Lemma number_or_not_zero :
  forall v d, d <> 0%Z -> number_or v d <> 0%Z.
Proof.
  intros [|negative|z] d Hd; cbn [number_or]; [exact Hd| |].
  - destruct negative; discriminate.
  - destruct (Z.eqb_spec z 0); assumption.
Qed.

Lemma digit_value_decimal :
  forall c, is_digit c = false -> digit_value 10 c = None.
Proof.
  intros c Hc. unfold digit_value. unfold is_digit in Hc. rewrite Hc.
  destruct (in_range 97%N 122%N c) eqn:Hlow.
  - unfold in_range in Hlow. apply andb_true_iff in Hlow as [Hlo _].
    apply N.leb_le in Hlo.
    replace (Z.of_N c - 97 + 10 <? 10)%Z with false; [reflexivity|].
    symmetry. apply Z.ltb_ge. lia.
  - destruct (in_range 65%N 90%N c) eqn:Hup; [|reflexivity].
    unfold in_range in Hup. apply andb_true_iff in Hup as [Hlo _].
    apply N.leb_le in Hlo.
    replace (Z.of_N c - 65 + 10 <? 10)%Z with false; [reflexivity|].
    symmetry. apply Z.ltb_ge. lia.
Qed.

Lemma trim_start_suffix :
  forall s c, In c (trim_start s) -> In c s.
Proof.
  induction s as [|x s IH]; intros c H; [exact H|].
  cbn [trim_start] in H. destruct (is_space x); [right; auto | exact H].
Qed.

(** What [parseInt] does once the white space and the sign are read. *)
Lemma parseInt_unfolded :
  forall text,
    parseInt text
    = let s := trim_start text in
      let negative :=
        match s with
        | c :: _ => is_char "-"%char c
        | [] => false
        end in
      let unsigned :=
        match s with
        | c :: s' =>
            if is_char "-"%char c || is_char "+"%char c then s' else s
        | [] => []
        end in
      let hex :=
        match unsigned with
        | z :: x :: _ =>
            is_char "0"%char z && (is_char "x"%char x || is_char "X"%char x)
        | _ => false
        end in
      match parse_digits (if hex then 16 else 10) 0 false
                         (if hex then skipn 2 unsigned else unsigned) with
      | Some m => to_number negative m
      | None => NaN
      end.
Proof.
  intro text. unfold parseInt. cbv zeta.
  destruct (trim_start text) as [|c s]; [reflexivity|].
  destruct (is_char "-"%char c) eqn:Hminus; cbn [orb].
  - destruct s as [|z [|x s']]; try reflexivity.
    destruct (is_char "0"%char z && (is_char "x"%char x || is_char "X"%char x));
      reflexivity.
  - destruct (is_char "+"%char c) eqn:Hplus.
    + destruct s as [|z [|x s']]; try reflexivity.
      destruct (is_char "0"%char z
                && (is_char "x"%char x || is_char "X"%char x));
        reflexivity.
    + destruct s as [|x s']; [reflexivity|].
      destruct (is_char "0"%char c
                && (is_char "x"%char x || is_char "X"%char x));
        reflexivity.
Qed.

(** A text without a decimal digit is not a number for [parseInt]. *)
Lemma parseInt_without_digit :
  forall text,
    (forall c, In c text -> is_digit c = false) -> parseInt text = NaN.
Proof.
  intros text H. rewrite parseInt_unfolded. cbv zeta.
  assert (Ht : forall c, In c (trim_start text) -> is_digit c = false)
    by (intros c Hc; apply H, trim_start_suffix, Hc).
  clear H.
  set (unsigned :=
         match trim_start text with
         | c :: s' =>
             if is_char "-"%char c || is_char "+"%char c
             then s' else trim_start text
         | [] => []
         end).
  assert (Hu : forall c, In c unsigned -> is_digit c = false).
  { subst unsigned. destruct (trim_start text) as [|c s]; [intros ? []|].
    destruct (is_char "-"%char c || is_char "+"%char c);
      intros x Hx; apply Ht; [right|]; exact Hx. }
  clearbody unsigned.
  destruct unsigned as [|z [|x s']].
  - reflexivity.
  - cbn [parse_digits].
    rewrite (digit_value_decimal z (Hu z (or_introl eq_refl))). reflexivity.
  - assert (Hz : is_char "0"%char z = false).
    { destruct (is_char "0"%char z) eqn:E; [|reflexivity].
      apply N.eqb_eq in E. subst z.
      specialize (Hu _ (or_introl eq_refl)). discriminate. }
    rewrite Hz. cbn [andb parse_digits].
    rewrite (digit_value_decimal z (Hu z (or_introl eq_refl))). reflexivity.
Qed.

Lemma digit_cases :
  forall c,
    is_digit c = true ->
    (c = 48 \/ c = 49 \/ c = 50 \/ c = 51 \/ c = 52 \/ c = 53
     \/ c = 54 \/ c = 55 \/ c = 56 \/ c = 57)%N.
Proof.
  intros c Hc. unfold is_digit, in_range in Hc.
  apply andb_true_iff in Hc as [Hlo Hhi].
  apply N.leb_le in Hlo. apply N.leb_le in Hhi. lia.
Qed.

(** What holds of each of the ten digits holds of every digit. *)
Lemma for_each_digit :
  forall (P : char16 -> Prop),
    P 48%N -> P 49%N -> P 50%N -> P 51%N -> P 52%N ->
    P 53%N -> P 54%N -> P 55%N -> P 56%N -> P 57%N ->
    forall c, is_digit c = true -> P c.
Proof.
  intros P H0 H1 H2 H3 H4 H5 H6 H7 H8 H9 c Hc.
  destruct (digit_cases c Hc)
    as [->|[->|[->|[->|[->|[->|[->|[->|[->| ->]]]]]]]]]; assumption.
Qed.

Lemma digit_value_of_digit :
  forall c, is_digit c = true -> digit_value 10 c = Some (Z.of_N c - 48)%Z.
Proof. apply for_each_digit; reflexivity. Qed.

Lemma digit_is_plain :
  forall c,
    is_digit c = true ->
    is_space c = false
    /\ is_char "-"%char c || is_char "+"%char c = false
    /\ is_char "x"%char c || is_char "X"%char c = false
    /\ (0 <= Z.of_N c - 48)%Z.
Proof. apply for_each_digit; repeat split; discriminate. Qed.

Lemma decimal_step_nonneg :
  forall ds acc,
    Forall (fun c => is_digit c = true) ds ->
    (0 <= acc)%Z ->
    (0 <= fold_left (fun a c => a * 10 + (Z.of_N c - 48)) ds acc)%Z.
Proof.
  induction ds as [|c ds IH]; intros acc Hd Hacc; [exact Hacc|].
  inversion Hd as [|? ? Hc Hds]; subst. cbn [fold_left].
  apply IH; [exact Hds|].
  pose proof (digit_is_plain c Hc) as (_ & _ & _ & Hv). lia.
Qed.

Lemma parse_decimal_digits :
  forall ds acc seen,
    Forall (fun c => is_digit c = true) ds ->
    parse_digits 10 acc seen ds
    = if seen || negb (match ds with [] => true | _ => false end)
      then Some (fold_left (fun a c => a * 10 + (Z.of_N c - 48))%Z ds acc)
      else None.
Proof.
  induction ds as [|c ds IH]; intros acc seen Hd.
  - cbn. destruct seen; reflexivity.
  - inversion Hd as [|? ? Hc Hds]; subst.
    cbn [parse_digits fold_left negb]. rewrite orb_true_r.
    rewrite (digit_value_of_digit c Hc), (IH _ true Hds). reflexivity.
Qed.

(** An integer below [2 ^ 53] is a double. *)
Lemma small_integer_is_exact :
  forall m, (0 <= m < 2 ^ 53)%Z -> to_number false m = Num m.
Proof.
  intros m [Hlo Hhi]. unfold to_number, nearest_double. cbv zeta.
  assert (Hbits : (Z.log2 m + 1 <=? 53)%Z = true).
  { apply Z.leb_le. destruct (Z.eq_dec m 0) as [->|Hm]; [cbn; lia|].
    assert (Z.log2 m < 53)%Z by (apply Z.log2_lt_pow2; lia). lia. }
  rewrite Hbits.
  assert (Hfin : (2 ^ 1024 <=? m)%Z = false).
  { apply Z.leb_gt.
    assert (2 ^ 53 <= 2 ^ 1024)%Z by (apply Z.pow_le_mono_r; lia). lia. }
  rewrite Hfin. reflexivity.
Qed.

(** A text of decimal digits below [2 ^ 53] is read as the integer it
    writes. *)
Lemma parseInt_decimal :
  forall ds,
    ds <> [] ->
    Forall (fun c => is_digit c = true) ds ->
    (decimal_value ds < 2 ^ 53)%Z ->
    parseInt ds = Num (decimal_value ds).
Proof.
  intros ds Hne Hd Hsmall. rewrite parseInt_unfolded. cbv zeta.
  destruct ds as [|c ds]; [contradiction|].
  inversion Hd as [|? ? Hc Hds]; subst.
  destruct (digit_is_plain c Hc) as (Hsp & Hsign & _ & _).
  cbn [trim_start]. rewrite Hsp, Hsign.
  apply orb_false_iff in Hsign as [Hminus _]. rewrite Hminus.
  assert (Hhex :
    match c :: ds with
    | z :: x :: _ =>
        is_char "0"%char z && (is_char "x"%char x || is_char "X"%char x)
    | _ => false
    end = false).
  { destruct ds as [|x ds']; [reflexivity|].
    inversion Hds as [|? ? Hx _]; subst.
    destruct (digit_is_plain x Hx) as (_ & _ & Hxx & _).
    rewrite Hxx. apply andb_false_r. }
  rewrite Hhex, (parse_decimal_digits (c :: ds) 0 false Hd).
  cbn [orb negb]. fold (decimal_value (c :: ds)).
  apply small_integer_is_exact. split; [|exact Hsmall].
  apply decimal_step_nonneg; [exact Hd | lia].
Qed.

Lemma count_ends_app :
  forall a b, count_ends (a ++ b) = count_ends a + count_ends b.
Proof.
  intros a b. unfold count_ends. rewrite filter_app, length_app.
  reflexivity.
Qed.

Lemma count_connects_app :
  forall a b, count_connects (a ++ b) = count_connects a + count_connects b.
Proof.
  intros a b. unfold count_connects. rewrite filter_app, length_app.
  reflexivity.
Qed.

Lemma or_undefined_truthy :
  forall v, if_truthy (or_undefined v) (fun n => Some n) None = or_undefined v.
Proof. intros [[|c n]|]; reflexivity. Qed.

Lemma or_undefined_some :
  forall v n, or_undefined v = Some n -> v = Some n /\ n <> [].
Proof.
  intros [[|c m]|] n H; cbn in H; try discriminate.
  injection H as <-. split; [reflexivity|discriminate].
Qed.

Section Page.

Variable hostname : jsstring.
Variable window_open_completion : jsstring -> jsstring -> Completion unit.
Variable mqtt_connect_completion : Url -> IClientOptions -> Completion unit.
Variable Buffer : Type.
Variable Buffer_toString : Buffer -> jsstring.

Local Abbreviation respond :=
  (react hostname window_open_completion mqtt_connect_completion
         Buffer_toString).
Local Abbreviation drive :=
  (run_inputs hostname window_open_completion mqtt_connect_completion
              Buffer_toString).
Local Abbreviation handler :=
  (handle hostname window_open_completion Buffer_toString).
Local Abbreviation connect := (connectToMqtt mqtt_connect_completion).
Local Abbreviation build := (build_message Buffer_toString).

Lemma call_effects_end_nothing :
  forall n, count_ends (call_effects hostname window_open_completion n) = 0.
Proof.
  intro n. unfold call_effects. destruct (is_dev_host hostname);
    [reflexivity|].
  destruct (window_open_completion (js "tel:" ++ n) (js "_system"));
    reflexivity.
Qed.

Lemma handlers_end_nothing :
  forall client ev st, count_ends (effects (handler client ev st)) = 0.
Proof.
  intros client ev st. rewrite handle_effects.
  destruct ev as [|[e|]|t payload now|e|]; try reflexivity.
  destruct (extractPhoneNumber (Buffer_toString payload)) as [[|c n]|];
    cbn [if_truthy]; try reflexivity.
  change (count_ends (EToast (toast_detected (c :: n))
                      :: call_effects hostname window_open_completion
                                      (c :: n)))
    with (count_ends (call_effects hostname window_open_completion (c :: n))).
  apply call_effects_end_nothing.
Qed.

Lemma built_record_consistent :
  forall t payload now, record_consistent (build t payload now).
Proof. intros. reflexivity. Qed.

Lemma handlers_keep_invariant :
  forall client ev st,
    session_invariant st -> session_invariant (final (handler client ev st)).
Proof.
  intros client ev st (Hhid & Hlen & Hrec & Hport).
  rewrite handle_final.
  destruct ev as [|[e|]|t payload now|e|]; unfold session_invariant;
    cbn [isConnected showSettings messages config with_messages andb];
    repeat split; auto.
  - apply push_bounded.
  - constructor; [apply built_record_consistent|].
    apply Forall_prefix. exact Hrec.
Qed.

(** Under the invariant the view holds no Disconnect button. *)
Lemma no_disconnect_button :
  forall st,
    isConnected st && showSettings st = false ->
    offered (render st) ClickDisconnect = false.
Proof.
  intros st H. unfold offered, render. cbn [settings_panel].
  destruct (isConnected st), (showSettings st); try discriminate;
    reflexivity.
Qed.

Lemma user_keeps_invariant :
  forall a st,
    session_invariant st ->
    offered (render st) a = true ->
    session_invariant (final (on_user mqtt_connect_completion a st))
    /\ count_ends (effects (on_user mqtt_connect_completion a st)) = 0.
Proof.
  intros a st Hinv Hoff.
  pose proof Hinv as (Hhid & Hlen & Hrec & Hport).
  destruct a as [v|v|v|v|v|random_hex| |]; cbn [on_user].
  - split; [|reflexivity]. unfold session_invariant; repeat split; auto.
  - split; [|reflexivity]. unfold session_invariant; repeat split; auto.
    cbn. apply number_or_not_zero. discriminate.
  - split; [|reflexivity]. unfold session_invariant; repeat split; auto.
  - split; [|reflexivity]. unfold session_invariant; repeat split; auto.
  - split; [|reflexivity]. unfold session_invariant; repeat split; auto.
  - rewrite connectToMqtt_outcome.
    destruct (mqtt_connect_completion (target_url (config st))
                (target_options (config st) random_hex)) as [[]|e];
      cbn [final effects]; split; try reflexivity;
      unfold session_invariant; repeat split; auto.
  - rewrite (no_disconnect_button st Hhid) in Hoff. discriminate.
  - split; [|reflexivity].
    unfold offered, render in Hoff. cbn [settings_panel] in Hoff.
    unfold session_invariant, toggle_settings, bind, get, setShowSettings,
      modify.
    cbn [completion final effects isConnected showSettings messages config].
    destruct (isConnected st), (showSettings st); try discriminate;
      repeat split; auto.
Qed.

Lemma react_keeps_invariant :
  forall i st,
    session_invariant st ->
    session_invariant (final (respond i st))
    /\ count_ends (effects (respond i st)) = 0.
Proof.
  intros [a|client ev] st Hinv; cbn [react].
  - destruct (offered (render st) a) eqn:Hoff.
    + apply user_keeps_invariant; assumption.
    + split; [exact Hinv | reflexivity].
  - split; [apply handlers_keep_invariant; exact Hinv|].
    apply handlers_end_nothing.
Qed.

Lemma run_keeps_invariant :
  forall inputs st,
    session_invariant st ->
    session_invariant (snd (drive inputs st))
    /\ count_ends (fst (drive inputs st)) = 0.
Proof.
  induction inputs as [|i inputs IH]; intros st Hinv.
  - split; [exact Hinv | reflexivity].
  - cbn [run_inputs].
    destruct (react_keeps_invariant i st Hinv) as [Hst Hends].
    specialize (IH _ Hst).
    destruct (drive inputs (final (respond i st))) as [effs st'].
    cbn [fst snd] in *. rewrite count_ends_app. split; [tauto | lia].
Qed.

Lemma initial_invariant : session_invariant initial_state.
Proof.
  unfold session_invariant. split; [reflexivity|].
  split; [cbn; lia|]. split; [constructor | discriminate].
Qed.

Lemma run_step :
  forall i inputs st,
    drive (i :: inputs) st
    = (effects (respond i st) ++ fst (drive inputs (final (respond i st))),
       snd (drive inputs (final (respond i st)))).
Proof.
  intros i inputs st. cbn [run_inputs].
  destruct (drive inputs (final (respond i st))). reflexivity.
Qed.

Lemma run_app :
  forall a b st, snd (drive (a ++ b) st) = snd (drive b (snd (drive a st))).
Proof.
  induction a as [|i a IH]; intros b st; [reflexivity|].
  cbn [app]. rewrite !run_step. cbn [snd]. apply IH.
Qed.

(** X11: in every state the page reaches from its first render, by
    actions of the user on controls the view holds and by transport
    events, the settings card is hidden while the status is Connected.
    The view therefore never holds the Disconnect button, and no such
    run calls [client.end()].  After a ['connect'] event the view holds
    no control at all. *)
Theorem disconnect_is_never_offered :
  forall inputs client,
    let st := snd (drive inputs initial_state) in
    let connected :=
      snd (drive (inputs ++ [Transport client (EvConnect Buffer)])
               initial_state) in
    offered (render st) ClickDisconnect = false
    /\ (isConnected st = false \/ settings_panel (render st) = None)
    /\ count_ends (fst (drive inputs initial_state)) = 0
    /\ isConnected connected = true
    /\ (forall a, offered (render connected) a = false).
Proof.
  intros inputs client st connected. subst st connected.
  destruct (run_keeps_invariant inputs initial_state initial_invariant)
    as [(Hhid & _) Hends].
  split; [apply no_disconnect_button; exact Hhid|].
  split; [|split; [exact Hends|]].
  - unfold render. cbn [settings_panel].
    destruct (isConnected (snd (drive inputs initial_state))),
      (showSettings (snd (drive inputs initial_state)));
      try discriminate; auto.
  - rewrite run_app. cbn [run_inputs react snd].
    rewrite handle_final. split; [reflexivity|].
    intro a. reflexivity.
Qed.

(** X12: the Connect button stays in the view until a ['connect'] event
    arrives, and every click on it calls [mqtt.connect] again: after n
    clicks in a row n clients were opened and none was ended. *)
Theorem every_connect_click_opens_a_client :
  forall hexes,
    let clicks := List.map (fun h => User Buffer (ClickConnect h)) hexes in
    count_connects (fst (drive clicks initial_state)) = List.length hexes
    /\ count_ends (fst (drive clicks initial_state)) = 0
    /\ isConnected (snd (drive clicks initial_state)) = false.
Proof.
  intros hexes clicks. subst clicks.
  split; [|split].
  - assert (H : forall st,
               isConnected st = false ->
               count_connects
                 (fst (drive (List.map (fun h => User Buffer (ClickConnect h))
                                     hexes) st))
               = List.length hexes).
    { induction hexes as [|h hexes IH]; intros st Hst; [reflexivity|].
      cbn [List.map List.length]. rewrite run_step. cbn [fst].
      rewrite count_connects_app. cbn [react].
      assert (Hoff : offered (render st) (ClickConnect h) = true).
      { unfold offered, render. cbn [settings_panel]. rewrite Hst.
        rewrite orb_true_r. reflexivity. }
      rewrite Hoff. cbn [on_user]. rewrite connectToMqtt_outcome.
      destruct (mqtt_connect_completion (target_url (config st))
                  (target_options (config st) h)) as [[]|e];
        cbn [effects final]; rewrite IH by exact Hst; reflexivity. }
    apply H. reflexivity.
  - apply run_keeps_invariant. apply initial_invariant.
  - assert (H : forall st,
               isConnected st = false ->
               isConnected
                 (snd (drive (List.map (fun h => User Buffer (ClickConnect h))
                                     hexes) st))
               = false).
    { induction hexes as [|h hexes IH]; intros st Hst; [exact Hst|].
      cbn [List.map]. rewrite run_step. cbn [snd]. apply IH.
      cbn [react].
      destruct (offered (render st) (ClickConnect h)); [|exact Hst].
      cbn [on_user]. rewrite connectToMqtt_outcome.
      destruct (mqtt_connect_completion (target_url (config st))
                  (target_options (config st) h)) as [[]|e];
        exact Hst. }
    apply H. reflexivity.
Qed.

Lemma consistent_number_dialable :
  forall r n,
    record_consistent r -> phoneNumber r = Some n -> dialable n.
Proof.
  intros r n Hr Hn. unfold record_consistent in Hr. rewrite Hr in Hn.
  apply or_undefined_some in Hn as [He Hne].
  split; [exact Hne|]. exact (extracted_shape _ _ He).
Qed.

Lemma rendered_entry_badge :
  forall r,
    record_consistent r ->
    entry_called (render_entry r)
    = or_undefined (extractPhoneNumber (entry_text (render_entry r))).
Proof.
  intros r Hr. unfold render_entry. cbn [entry_called entry_text].
  rewrite Hr. apply or_undefined_truthy.
Qed.

(** X13: in every state the page reaches, the log holds at most 50
    records; the number attached to a record is the cleaned first match
    of its own payload when that is not empty, and nothing otherwise, so
    that an attached number is never empty and is an optional ['+'] and
    at most 15 digits.  In the view the count badge shows the length of
    the log, and an entry carries a "Called:" badge exactly when the
    extractor finds a non-empty number in the text of that entry. *)
Theorem log_and_badges_are_consistent :
  forall inputs,
    let st := snd (drive inputs initial_state) in
    List.length (messages st) <= 50
    /\ Forall (fun r =>
                 phoneNumber r
                 = or_undefined (extractPhoneNumber (message r))
                 /\ forall n, phoneNumber r = Some n -> dialable n)
              (messages st)
    /\ match messages_panel (render st) with
       | Some p =>
           count_badge p = List.length (messages st)
           /\ match panel_body p with
              | Entries es =>
                  List.length es = List.length (messages st)
                  /\ es <> []
                  /\ Forall (fun e =>
                               entry_called e
                               = or_undefined
                                   (extractPhoneNumber (entry_text e)))
                            es
              | Waiting _ => messages st = []
              end
       | None => isConnected st = false
       end.
Proof.
  intros inputs st. subst st.
  destruct (run_keeps_invariant inputs initial_state initial_invariant)
    as [(_ & Hlen & Hrec & _) _].
  set (st := snd (drive inputs initial_state)) in *.
  split; [exact Hlen|]. split.
  - eapply Forall_impl; [|exact Hrec].
    intros r Hr. split; [exact Hr|].
    intros n Hn. exact (consistent_number_dialable r n Hr Hn).
  - unfold render. cbn [messages_panel].
    destruct (isConnected st); [|reflexivity].
    cbn [count_badge panel_body]. split; [reflexivity|].
    destruct (messages st) as [|r l] eqn:Hm; cbn [List.length Nat.eqb].
    + reflexivity.
    + split; [rewrite length_map; reflexivity|].
      split; [discriminate|].
      apply Forall_forall. intros e He.
      apply in_map_iff in He as (r' & <- & Hin).
      apply rendered_entry_badge.
      rewrite Forall_forall in Hrec. apply Hrec. exact Hin.
Qed.

(** X14: the port is never zero, in any state the page reaches.  The
    port field stores 8000 for a text that [parseInt] cannot read or
    reads as zero; a text without a decimal digit, the empty text among
    them, is such a text.  No range is checked: a text of decimal digits
    that writes an integer between 1 and [2 ^ 53 - 1] stores that
    integer. *)
Theorem port_is_never_zero :
  forall inputs value st,
    let stored := port (config (final (on_change_port value st))) in
    port (config (snd (drive inputs initial_state))) <> 0%Z
    /\ stored <> 0%Z
    /\ ((forall c, In c value -> is_digit c = false) -> stored = 8000%Z)
    /\ ((parseInt value = NaN \/ parseInt value = Num 0) ->
        stored = 8000%Z)
    /\ (value <> [] ->
        Forall (fun c => is_digit c = true) value ->
        (0 < decimal_value value < 2 ^ 53)%Z ->
        stored = decimal_value value).
Proof.
  intros inputs value st stored. subst stored.
  destruct (run_keeps_invariant inputs initial_state initial_invariant)
    as [(_ & _ & _ & Hport) _].
  split; [exact Hport|].
  cbn [on_change_port setConfig modify final config port].
  split; [apply number_or_not_zero; discriminate|]. split; [|split].
  - intro H. rewrite (parseInt_without_digit value H). reflexivity.
  - intros [H|H]; rewrite H; reflexivity.
  - intros Hne Hd [Hpos Hsmall].
    rewrite (parseInt_decimal value Hne Hd Hsmall). cbn [number_or].
    destruct (Z.eqb_spec (decimal_value value) 0) as [H0|_]; [lia|].
    reflexivity.
Qed.

(** X15: the handlers of a client keep the topic of the moment of the
    connect click.  When the topic field is edited between the click and
    the ['connect'] event, the event subscribes to the old topic, while
    the state, and with it the "Waiting for messages on topic" line of the
    view, holds the new one. *)
Theorem subscription_keeps_the_topic_of_the_click :
  forall random_hex value st,
    (forall url options, mqtt_connect_completion url options = Normal tt) ->
    exists client,
      clientRef (final (connect random_hex st)) = Some client
      /\ let edited :=
           final (on_change_topic value (final (connect random_hex st))) in
         let o := on_connect client edited in
         effects o = [ESubscribe (cfg_topic (config st))]
         /\ cfg_topic (config (final o)) = value
         /\ (messages st = [] ->
             messages_panel (render (final o))
             = Some (mkMessagesPanel 0 (Waiting value))).
Proof.
  intros random_hex value st Hok.
  exists (mkClient (target_url (config st))
                   (target_options (config st) random_hex) (config st)).
  rewrite connectToMqtt_outcome, Hok. cbn [final].
  split; [reflexivity|]. split; [reflexivity|]. split; [reflexivity|].
  intro Hempty. unfold render. cbn. rewrite Hempty. reflexivity.
Qed.

(** X16: neither a ['close'] event nor [disconnect] clears the log.  A
    ['close'] event hides the message list; the next ['connect'] event
    shows the same list again. *)
Theorem log_survives_close_and_reconnect :
  forall client st,
    isConnected st = true ->
    messages_panel (render (final (on_close st))) = None
    /\ messages (final (on_close st)) = messages st
    /\ messages (final (disconnect st)) = messages st
    /\ messages_panel
         (render (final (on_connect client (final (on_close st)))))
       = messages_panel (render st).
Proof.
  intros client st Hst. split; [reflexivity|]. split; [reflexivity|].
  split.
  - destruct (clientRef st) as [c|] eqn:Href.
    + rewrite (disconnect_live st c Href). reflexivity.
    + rewrite (disconnect_idle st Href). reflexivity.
  - unfold render. cbn. rewrite Hst. reflexivity.
Qed.

End Page.

Lemma port_is_never_zero_example :
  port (config (final (on_change_port [] initial_state))) = 8000%Z
  /\ port (config (final (on_change_port (js "70000") initial_state)))
     = 70000%Z.
Proof.
  destruct (port_is_never_zero
              example_hostname example_window_open (fun _ _ => Normal tt)
              jsstring example_toString [] [] initial_state)
    as (_ & _ & H & _).
  destruct (port_is_never_zero
              example_hostname example_window_open (fun _ _ => Normal tt)
              jsstring example_toString [] (js "70000") initial_state)
    as (_ & _ & _ & _ & H').
  split; [apply H; intros c [] |].
  apply H'; [discriminate | repeat constructor | vm_compute; auto].
Defined.

Lemma subscription_keeps_the_topic_example :
  exists client,
    clientRef (final (connectToMqtt (fun _ _ => Normal tt) (js "0.8a3f9c")
                                    initial_state))
    = Some client
    /\ effects
         (on_connect client
            (final (on_change_topic
                      (js "dialer/other")
                      (final (connectToMqtt (fun _ _ => Normal tt)
                                            (js "0.8a3f9c")
                                            initial_state)))))
       = [ESubscribe (js "dialer/phone")].
Proof.
  destruct (subscription_keeps_the_topic_of_the_click
              (fun _ _ => Normal tt) (js "0.8a3f9c") (js "dialer/other")
              initial_state (fun _ _ => eq_refl))
    as (client & Href & Hsub & _).
  exists client. split; [exact Href | exact Hsub].
Defined.

Lemma log_survives_close_and_reconnect_example :
  messages_panel
    (render (final (on_connect example_client
                      (final (on_close
                                (final (on_connect example_client
                                                   initial_state)))))))
  = messages_panel (render (final (on_connect example_client initial_state))).
Proof.
  apply (log_survives_close_and_reconnect
           example_client (final (on_connect example_client initial_state))).
  reflexivity.
Defined.

Lemma notices_leave_the_state_example :
  final (handle example_hostname example_window_open example_toString
                example_client (EvError jsstring (js "connack timeout"))
                initial_state)
  = initial_state.
Proof.
  destruct (notices_leave_the_state
              example_hostname example_window_open jsstring
              example_toString example_client [] initial_state)
    as [H _].
  apply (H (EvError jsstring (js "connack timeout"))). reflexivity.
Defined.

Lemma log_and_badges_example :
  dialable (js "+18005550199").
Proof.
  pose proof (log_and_badges_are_consistent
                example_hostname example_window_open (fun _ _ => Normal tt)
                jsstring example_toString
                [Transport example_client
                           (EvMessage (js "dialer/phone")
                                      (js "+1 800 555 0199") 0%Z)])
    as (_ & H & _).
  change (Forall
            (fun r =>
               phoneNumber r = or_undefined (extractPhoneNumber (message r))
               /\ (forall n, phoneNumber r = Some n -> dialable n))
            [build_message example_toString (js "dialer/phone")
                           (js "+1 800 555 0199") 0%Z]) in H.
  destruct (Forall_inv H) as [_ Hd]. apply Hd. vm_compute. reflexivity.
Defined.
